(** * fujisan_leak_detector: result presentation and reconciliation core

    The repository holds the React front end ([frontend/src/App.tsx] and its
    earlier revisions) together with the design notes of the search back end.
    The front-end functions are embedded from the TypeScript source; the
    back-end components, whose Python sources are not part of the tree, are
    embedded from the design notes and the specification. *)

From Stdlib Require Import QArith Qminmax.
From stdpp Require Import base list sorting strings gmap sets.

Local Open Scope string_scope.

(** ** Front end: the analysis results as the UI receives them *)

Module Frontend.

(** [interface AnalysisResult { url; judgment; reason }].  The TypeScript
    type restricts [judgment] to four literals, but the value arrives from
    JSON, so the model keeps it a string, as the [else] branches of the
    code do. *)
Record AnalysisResult := mkAnalysisResult {
  url : string;
  judgment : string;
  reason : string
}.

(** The four judgment marks, as UTF-8 byte strings. *)
Definition J_SAFE : string := "○".
Definition J_DANGER : string := "×".
Definition J_UNKNOWN : string := "？".
Definition J_WARNING : string := "！".

(** *** Batch overview: per-file summary (part_003, l.2033-2039) *)

Record Summary := mkSummary {
  safe : nat;
  dangerous : nat;
  warning : nat;
  unknown : nat
}.

Definition summary0 : Summary := mkSummary 0 0 0 0.

(** The reducer callback: [(acc, r) => { if ... acc.safe++ ...; return acc }]. *)
Definition summary_step (acc : Summary) (r : AnalysisResult) : Summary :=
  if String.eqb (judgment r) J_SAFE then
    mkSummary (S (safe acc)) (dangerous acc) (warning acc) (unknown acc)
  else if String.eqb (judgment r) J_DANGER then
    mkSummary (safe acc) (S (dangerous acc)) (warning acc) (unknown acc)
  else if String.eqb (judgment r) J_WARNING then
    mkSummary (safe acc) (dangerous acc) (S (warning acc)) (unknown acc)
  else
    mkSummary (safe acc) (dangerous acc) (warning acc) (S (unknown acc)).

(** [Array.prototype.reduce] with an initial value is a left fold. *)
Definition reduce {A B} (f : B -> A -> B) (init : B) (l : list A) : B :=
  fold_left f l init.

(** [result.results?.reduce(..., zeros) || zeros]: [results] is optional. *)
Definition summary (results : option (list AnalysisResult)) : Summary :=
  match results with
  | Some rs => reduce summary_step summary0 rs
  | None => summary0
  end.

Definition total (s : Summary) : nat :=
  safe s + dangerous s + warning s + unknown s.

(** The classes of results the properties below count. *)
Definition is_safe (r : AnalysisResult) : bool := String.eqb (judgment r) J_SAFE.
Definition is_danger (r : AnalysisResult) : bool := String.eqb (judgment r) J_DANGER.
Definition is_warning (r : AnalysisResult) : bool := String.eqb (judgment r) J_WARNING.
Definition is_unknown (r : AnalysisResult) : bool := String.eqb (judgment r) J_UNKNOWN.
Definition is_other (r : AnalysisResult) : bool :=
  negb (is_safe r) && negb (is_danger r) && negb (is_warning r).
Definition is_known (r : AnalysisResult) : bool :=
  is_safe r || is_danger r || is_unknown r || is_warning r.

Definition count (f : AnalysisResult -> bool) (rs : list AnalysisResult) : nat :=
  length (List.filter f rs).

(** *** Three-column results view (App.tsx, l.1118-1122) *)

Record Grouped := mkGrouped {
  g_safe : list AnalysisResult;      (* key '○' *)
  g_unknown : list AnalysisResult;   (* key '？' *)
  g_danger : list AnalysisResult     (* key '×' *)
}.

Definition groupedResults (results : list AnalysisResult) : Grouped :=
  {| g_safe := List.filter (fun r => String.eqb (judgment r) J_SAFE) results;
     g_unknown := List.filter (fun r => String.eqb (judgment r) J_UNKNOWN
                                        || String.eqb (judgment r) J_WARNING) results;
     g_danger := List.filter (fun r => String.eqb (judgment r) J_DANGER) results |}.

(** *** Diff alert (App.tsx, l.987; part_003, l.1882) *)

(** The [diff] member of [DiffResponse]; the alert body reads the totals. *)
Record DiffBody := mkDiffBody {
  new_urls : list AnalysisResult;
  disappeared_urls : list AnalysisResult;
  changed_urls : list (string * AnalysisResult * AnalysisResult);
  has_changes : bool;
  total_new : nat;
  total_disappeared : nat;
  total_changed : nat
}.

Record DiffResponse := mkDiffResponse {
  success : bool;
  has_previous : bool;
  message : option string;
  diff : option DiffBody
}.

(** [diffData && diffData.has_previous && diffData.diff &&
     diffData.diff.has_changes && (<div>...</div>)]: the element is rendered
    exactly when every operand of the chain is truthy.  [diffData] is the
    state variable, [null] until a diff response has been stored. *)
Definition diffAlertShown (diffData : option DiffResponse) : bool :=
  match diffData with
  | None => false
  | Some d =>
      if has_previous d then
        match diff d with
        | None => false
        | Some b => has_changes b
        end
      else false
  end.

(** The alert sits inside the results section, which is rendered under
    [analysisResults && ...] (App.tsx, l.980) or
    [(analysisResults || showBatchResults) && ...] (part_003, l.1875). *)
Definition diffAlertRendered (sectionShown : bool) (diffData : option DiffResponse)
  : bool :=
  sectionShown && diffAlertShown diffData.

(** The state variable through the handlers: [fetchDiffData] stores the
    response on success and leaves the state as it was when the request
    throws; [resetToStart] clears it. *)
Inductive DiffEvent :=
| FetchOk (d : DiffResponse)
| FetchFailed
| Reset.

Definition diffStep (st : option DiffResponse) (e : DiffEvent) : option DiffResponse :=
  match e with
  | FetchOk d => Some d
  | FetchFailed => st
  | Reset => None
  end.

End Frontend.

(** ** Hash Engine (SerpAPI design note, part_005) *)

Module HashEngine.

(** A perceptual hash is a fixed-width bit string, kept as the number whose
    binary digits are the hash bits. *)
Abbreviation Hash := N (only parsing).

Fixpoint popcount_pos (p : positive) : nat :=
  match p with
  | xH => 1
  | xO q => popcount_pos q
  | xI q => S (popcount_pos q)
  end.

Definition popcount (n : N) : nat :=
  match n with
  | N0 => 0
  | Npos p => popcount_pos p
  end.

(** [imagehash.phash(image1) - imagehash.phash(image2)]: the number of bit
    positions at which the two hashes differ. *)
Definition distance (a b : Hash) : nat := popcount (N.lxor a b).

Record ImageFingerprint := mkFingerprint {
  contentHash : string;
  pHash : Hash;
  dHash : Hash;
  aHash : Hash
}.

Record HashDistances := mkHashDistances {
  phash_dist : nat;
  dhash_dist : nat;
  ahash_dist : nat;
  max_distance : nat
}.

(** Modelled from the spec: the note's excerpt uses [max_distance] without
    showing its assignment; the specification reads it as the maximum of the
    three distances ("max(all three)"). *)
Definition hash_distances (fpA fpB : ImageFingerprint) : HashDistances :=
  let p := distance (pHash fpA) (pHash fpB) in
  let d := distance (dHash fpA) (dHash fpB) in
  let a := distance (aHash fpA) (aHash fpB) in
  mkHashDistances p d a (Nat.max p (Nat.max d a)).

Record HashThresholds := mkHashThresholds {
  phash_max : nat;
  dhash_max : nat;
  ahash_max : nat;
  overall_max : nat
}.

(** [HASH_THRESHOLDS] (part_005, l.110-115). *)
Definition HASH_THRESHOLDS : HashThresholds := mkHashThresholds 2 3 3 3.

(** [is_near_exact = (phash_dist <= 2 and dhash_dist <= 3 and
     ahash_dist <= 3 and max_distance <= 3)] (part_005, l.22-23). *)
Definition is_near_exact (h : HashDistances) : bool :=
  (phash_dist h <=? phash_max HASH_THRESHOLDS)%nat
  && (dhash_dist h <=? dhash_max HASH_THRESHOLDS)%nat
  && (ahash_dist h <=? ahash_max HASH_THRESHOLDS)%nat
  && (max_distance h <=? overall_max HASH_THRESHOLDS)%nat.

Definition isNearDuplicate (fpA fpB : ImageFingerprint) : bool :=
  is_near_exact (hash_distances fpA fpB).

(** Confidence levels (part_005, l.101-104): maximum hash distance <= 1 is
    the highest level, <= 3 the high level; beyond that there is no match. *)
Inductive Tier := Highest | High.

Definition confidence_tier (h : HashDistances) : option Tier :=
  if (max_distance h <=? 1)%nat then Some Highest
  else if (max_distance h <=? 3)%nat then Some High
  else None.

End HashEngine.

(** ** Provider Client: the SerpAPI-style variant *)

Module Provider.
Import HashEngine.

(** [RawCandidate].  [hashDistances] is the [hash_distances] entry a client
    leaves in its result when it compared a thumbnail itself; the rest of
    the provider metadata is opaque.  Confidences are exact rationals. *)
Record RawCandidate := mkRawCandidate {
  url : string;
  title : string;
  thumbnailRef : option string;
  providerName : string;
  providerConfidence : Q;
  hashDistances : option HashDistances;
  providerMetadata : gmap string string
}.

(** Modelled from the spec: the score a SerpAPI-style client attaches to an
    accepted thumbnail is not part of the tree; the specification gives it
    per level (highest -> 0.9, high -> 0.7). *)
Definition tier_confidence (t : Tier) : Q :=
  match t with
  | Highest => 9 # 10
  | High => 7 # 10
  end.

(** One entry of the provider's [visual_matches], with the fingerprint of
    its thumbnail as computed in memory. *)
Record VisualMatch := mkVisualMatch {
  link : string;
  vm_title : string;
  thumbnail : string;
  thumbnail_fp : ImageFingerprint
}.

Definition SERPAPI : string := "SerpAPI".

(** Modelled from the spec: the per-thumbnail step of the SerpAPI-style
    client (the body of [serpapi_reverse_image_search] is not part of the
    tree): compare with the query fingerprint, discard what is not a
    near-duplicate, score the rest by level. *)
Definition accept_thumbnail (query : ImageFingerprint) (m : VisualMatch)
  : option RawCandidate :=
  let h := hash_distances query (thumbnail_fp m) in
  if is_near_exact h then
    match confidence_tier h with
    | Some t =>
        Some (mkRawCandidate (link m) (vm_title m) (Some (thumbnail m)) SERPAPI
                (tier_confidence t) (Some h) ∅)
    | None => None
    end
  else None.





End Provider.

(** ** Result Merger *)

Module Merger.
Import HashEngine Provider.

Record MergedResult := mkMergedResult {
  url : string;
  domain : string;
  title : string;
  combinedConfidence : Q;
  contributingProviders : gset string;
  hashDistances : option HashDistances;
  crossValidated : bool
}.

(** The fixed cross-validation bonus and the cap. *)
Definition CROSS_VALIDATION_BONUS : Q := 1 # 10.
Definition CONFIDENCE_CAP : Q := 1.

(** Keys in the order of their first occurrence. *)
Fixpoint dedup (l : list string) : list string :=
  match l with
  | [] => []
  | k :: t => k :: List.filter (fun k' => negb (String.eqb k' k)) (dedup t)
  end.

(** Greatest provider confidence of a non-empty group. *)
Definition max_confidence (c : RawCandidate) (cs : list RawCandidate) : Q :=
  fold_left (fun m c' => Qmax m (providerConfidence c')) cs (providerConfidence c).

(** [best] is the greatest provider confidence found in [g]. *)
Definition is_max (best : Q) (g : list RawCandidate) : Prop :=
  (exists c, In c g /\ providerConfidence c = best)
  /\ (forall c, In c g -> (providerConfidence c <= best)%Q).

(** The contributor whose title and distances are kept: one that performed
    a perceptual comparison when there is one, the first otherwise. *)
Definition representative (c : RawCandidate) (cs : list RawCandidate) : RawCandidate :=
  match List.find (fun c' => bool_decide (is_Some (Provider.hashDistances c'))) (c :: cs) with
  | Some r => r
  | None => c
  end.

(** Output order: descending confidence, ties by ascending url. *)
Definition precedes (a b : MergedResult) : bool :=
  match Qcompare (combinedConfidence b) (combinedConfidence a) with
  | Lt => true
  | Gt => false
  | Eq => String.leb (url a) (url b)
  end.

Definition before (a b : MergedResult) : Prop := precedes a b = true.

Fixpoint insert_sorted (x : MergedResult) (l : list MergedResult) : list MergedResult :=
  match l with
  | [] => [x]
  | y :: t => if precedes x y then x :: y :: t else y :: insert_sorted x t
  end.

Definition sort_results (l : list MergedResult) : list MergedResult :=
  foldr insert_sorted [] l.

Section Merge.
(** Modelled from the spec: the specification names the url normalisation
    (strip tracking parameters, lower-case the host, strip a trailing
    slash) and the domain of a url without fixing either; [merge] takes
    them as given. *)
Variable normalize_url : string -> string.
Variable domain_of : string -> string.

Definition key (c : RawCandidate) : string := normalize_url (Provider.url c).

Definition group (k : string) (cs : list RawCandidate) : list RawCandidate :=
  List.filter (fun c => String.eqb (key c) k) cs.

(** Modelled from the spec: one merged result per dedup key (section 4.4;
    [SearchResultMerger] is listed in the design note by interface only). *)
Definition merge_group (k : string) (g : list RawCandidate) : option MergedResult :=
  match g with
  | [] => None
  | c :: cs =>
      let providers : gset string := list_to_set (providerName <$> g) in
      let best := max_confidence c cs in
      let cv := bool_decide (1 < size providers)%nat in
      let rep := representative c cs in
      Some {| url := k;
              domain := domain_of k;
              title := Provider.title rep;
              combinedConfidence :=
                if cv then Qmin CONFIDENCE_CAP (best + CROSS_VALIDATION_BONUS) else best;
              contributingProviders := providers;
              hashDistances := Provider.hashDistances rep;
              crossValidated := cv |}
  end.

(** Modelled from the spec: [merge(candidates) -> []MergedResult]. *)
Definition merge (cs : list RawCandidate) : list MergedResult :=
  sort_results (omap (fun k => merge_group k (group k cs)) (dedup (key <$> cs))).

End Merge.

(** The scenario of two engines reporting one page beside a page reported
    by one engine. *)
Definition same_url (u : string) : string := u.

Definition two_engines : list RawCandidate :=
  [ mkRawCandidate "http://a.example/x" "X" None "Alpha" (6 # 10) None ∅;
    mkRawCandidate "http://b.example/y" "Y" None "Alpha" (85 # 100) None ∅;
    mkRawCandidate "http://a.example/x" "X" None "Beta" (7 # 10) None ∅ ].

(** The scenario of section 8: Alpha reports a page with confidence 0.9,
    Beta the same page with confidence 0.5. *)
Definition alpha_beta : list RawCandidate :=
  [ mkRawCandidate "http://pub.example/x" "X" None "Alpha" (9 # 10) None ∅;
    mkRawCandidate "http://pub.example/x" "X" None "Beta" (5 # 10) None ∅ ].

Definition pub_merged : MergedResult :=
  mkMergedResult "http://pub.example/x" "http://pub.example/x" "X" 1
    (list_to_set ["Alpha"; "Beta"]) None true.

(** Candidates derived from the merged [two_engines]: one per contributing
    provider, carrying the greatest confidence reported for the page. *)
Definition two_engines_reported : list RawCandidate :=
  [ mkRawCandidate "http://b.example/y" "Y" None "Alpha" (85 # 100) None ∅;
    mkRawCandidate "http://a.example/x" "X" None "Alpha" (7 # 10) None ∅;
    mkRawCandidate "http://a.example/x" "X" None "Beta" (7 # 10) None ∅ ].

Definition two_engines_merged : list MergedResult :=
  [ mkMergedResult "http://b.example/y" "http://b.example/y" "Y" (85 # 100)
      (list_to_set ["Alpha"]) None false;
    mkMergedResult "http://a.example/x" "http://a.example/x" "X" (80 # 100)
      (list_to_set ["Alpha"; "Beta"]) None true ].

End Merger.

(** ** Judgment Classifier *)

Module Classifier.
Import Merger.

Inductive Judgment := safe | dangerous | warning | unknown.

Record ClassifiedResult := mkClassified {
  merged : MergedResult;
  judgment : Judgment;
  reason : string
}.

Record Rule := mkRule {
  applies : MergedResult -> bool;
  verdict : Judgment;
  why : string
}.

Definition HIGH_CONFIDENCE : Q := 8 # 10.
Definition LOW_CONFIDENCE : Q := 4 # 10.

Section Rules.
(** Modelled from the spec: the allow-list (publisher and own domains)
    and the deny-list (known distribution domains) are configuration. *)
Variable allow_list : gset string.
Variable deny_list : gset string.

Definition on_allow_list (m : MergedResult) : bool :=
  bool_decide (domain m ∈ allow_list).

Definition confirmed_across_engines (m : MergedResult) : bool :=
  crossValidated m && Qle_bool HIGH_CONFIDENCE (combinedConfidence m).

Definition on_deny_list (m : MergedResult) : bool :=
  bool_decide (domain m ∈ deny_list).

Definition partial_match (m : MergedResult) : bool :=
  Qle_bool LOW_CONFIDENCE (combinedConfidence m)
  && negb (Qle_bool HIGH_CONFIDENCE (combinedConfidence m)).

(** Modelled from the spec: the rule table of section 4.5, rules 1 to 4 in
    order; rule 5 is the default below. *)
Definition rule_table : list Rule :=
  [ mkRule on_allow_list safe "verified publisher domain";
    mkRule confirmed_across_engines dangerous
      "confirmed redistribution across multiple engines";
    mkRule on_deny_list dangerous "listed distribution domain";
    mkRule partial_match warning "partial match, manual review recommended" ].

Definition default_rule : Rule :=
  mkRule (fun _ => true) unknown "insufficient signal for classification".

(** Top-down evaluation, first match wins. *)
Definition first_match (m : MergedResult) : Rule :=
  match List.find (fun r => applies r m) rule_table with
  | Some r => r
  | None => default_rule
  end.

Definition classify_one (m : MergedResult) : ClassifiedResult :=
  let r := first_match m in mkClassified m (verdict r) (why r).

(** Modelled from the spec: [classify(merged) -> []ClassifiedResult]. *)
Definition classify (ms : list MergedResult) : list ClassifiedResult :=
  classify_one <$> ms.

(** The rule table read as a relation: rule [n] gives the judgment when it
    matches and no rule above it does. *)
Inductive judged (m : MergedResult) : Judgment -> Prop :=
| judged_allow :
    on_allow_list m = true -> judged m safe
| judged_confirmed :
    on_allow_list m = false -> confirmed_across_engines m = true ->
    judged m dangerous
| judged_deny :
    on_allow_list m = false -> confirmed_across_engines m = false ->
    on_deny_list m = true -> judged m dangerous
| judged_partial :
    on_allow_list m = false -> confirmed_across_engines m = false ->
    on_deny_list m = false -> partial_match m = true -> judged m warning
| judged_default :
    on_allow_list m = false -> confirmed_across_engines m = false ->
    on_deny_list m = false -> partial_match m = false -> judged m unknown.

End Rules.

(** A merged result with the fields the rules read. *)
Definition sample (d : string) (c : Q) (cv : bool) : MergedResult :=
  mkMergedResult ("http://" ++ d ++ "/x") d "t" c ∅ None cv.

End Classifier.

(** ** History Diff Engine *)

Module HistoryDiff.
Import Merger Classifier.

Record AnalysisSnapshot := mkSnapshot {
  imageContentHash : string;
  timestamp : N;
  results : list ClassifiedResult;
  summaryCounts : list (Judgment * nat)
}.

(** [hasBaseline] is the flag that tells a first analysis (no previous
    snapshot) from a comparison; the UI receives it as [has_previous]. *)
Record DiffResult := mkDiffResult {
  newResults : list ClassifiedResult;
  disappearedResults : list ClassifiedResult;
  changedResults : list (ClassifiedResult * ClassifiedResult);
  hasChanges : bool;
  hasBaseline : bool
}.

Definition result_url (r : ClassifiedResult) : string := url (merged r).

Definition lookup_url (u : string) (rs : list ClassifiedResult) : option ClassifiedResult :=
  List.find (fun r => String.eqb (result_url r) u) rs.

Definition Judgment_eqb (a b : Judgment) : bool :=
  match a, b with
  | safe, safe | dangerous, dangerous | warning, warning | unknown, unknown => true
  | _, _ => false
  end.

Definition absent_in (rs : list ClassifiedResult) (r : ClassifiedResult) : bool :=
  match lookup_url (result_url r) rs with
  | Some _ => false
  | None => true
  end.

(** Pairs (previous, current) for the urls in both whose judgment differs. *)
Definition changed (prev cur : list ClassifiedResult)
  : list (ClassifiedResult * ClassifiedResult) :=
  omap (fun c =>
          match lookup_url (result_url c) prev with
          | Some p => if Judgment_eqb (judgment p) (judgment c) then None else Some (p, c)
          | None => None
          end) cur.

Definition is_nil {A} (l : list A) : bool :=
  match l with [] => true | _ => false end.

(** Modelled from the spec: [diff(current, previous|absent) -> DiffResult]
    (section 4.6). *)
Definition diff (current : AnalysisSnapshot) (previous : option AnalysisSnapshot)
  : DiffResult :=
  match previous with
  | None => mkDiffResult [] [] [] false false
  | Some prev =>
      let new := List.filter (absent_in (results prev)) (results current) in
      let gone := List.filter (absent_in (results current)) (results prev) in
      let chg := changed (results prev) (results current) in
      mkDiffResult new gone chg
        (negb (is_nil new && is_nil gone && is_nil chg)) true
  end.

End HistoryDiff.

(** ** Search Orchestrator *)

Module Orchestrator.
Import Provider.

Record Image := mkImage {
  width : nat;
  height : nat;
  bytes : list Byte.byte
}.

(** [PROCESSING_LIMITS["min_image_size"]] (part_005, l.117-121). *)
Definition MIN_IMAGE_SIZE : nat := 50.

Definition valid_image (img : Image) : bool :=
  (MIN_IMAGE_SIZE <=? width img)%nat && (MIN_IMAGE_SIZE <=? height img)%nat.

Inductive ProviderError := AuthenticationError | RateLimited | NetworkTimeout.

(** What one provider call comes back with, and after how long. *)
Inductive Outcome :=
| Returned (cs : list RawCandidate)
| Failed (e : ProviderError).

Record CallResult := mkCallResult {
  outcome : Outcome;
  elapsed : N
}.

(** The provider interface: [search], bounded by the timeout it is given,
    and whether credentials are configured. *)
Record ProviderClient := mkProviderClient {
  name : string;
  has_credentials : bool;
  search : Image -> N -> CallResult
}.

Inductive Breaker :=
| Closed (failures : nat)
| Open (since : N)
| HalfOpen.

(** What the statistics record for one provider. *)
Inductive ProviderStatus :=
| Succeeded (count : nat)
| Errored (e : ProviderError)
| Unavailable.

Record SearchEngineStats := mkStats {
  perProvider : list (string * ProviderStatus);
  totalFailure : bool
}.

(** The only failure that reaches the caller. *)
Inductive SearchError := InvalidImage.

Definition is_success (s : ProviderStatus) : bool :=
  match s with Succeeded _ => true | _ => false end.

Section SearchAll.
(** Modelled from the spec: the failure threshold N and the cooldown
    window of the circuit breaker are configuration. *)
Variable failure_threshold : nat.
Variable cooldown : N.

Definition breaker_of (store : gmap string Breaker) (n : string) : Breaker :=
  default (Closed 0) (store !! n).

(** The state a call would run in, or [None] when calls are skipped. *)
Definition admits (now : N) (b : Breaker) : option Breaker :=
  match b with
  | Closed n => Some (Closed n)
  | Open since => if (since + cooldown <=? now)%N then Some HalfOpen else None
  | HalfOpen => Some HalfOpen
  end.

Definition isAvailable (store : gmap string Breaker) (now : N) (p : ProviderClient)
  : bool :=
  has_credentials p && bool_decide (is_Some (admits now (breaker_of store (name p)))).

Definition on_failure (now : N) (e : ProviderError) (b : Breaker) : Breaker :=
  match e, b with
  | AuthenticationError, _ => Open now
  | _, Closed n => if (failure_threshold <=? S n)%nat then Open now else Closed (S n)
  | _, _ => Open now
  end.

(** A provider task that contributes nothing: the provider is skipped,
    its call is cut by the deadline, or the call fails. *)
Definition fruitless (store : gmap string Breaker) (now : N) (img : Image)
    (perProviderTimeout overallDeadline : N) (p : ProviderClient) : Prop :=
  isAvailable store now p = false
  \/ (overallDeadline < elapsed (search p img perProviderTimeout))%N
  \/ exists e, outcome (search p img perProviderTimeout) = Failed e.

(** One provider task: skipped when unavailable; a call that outlasts the
    overall deadline is cancelled and recorded as a timeout. *)
Definition invoke (store : gmap string Breaker) (now : N) (img : Image)
    (perProviderTimeout overallDeadline : N) (p : ProviderClient)
  : list RawCandidate * ProviderStatus :=
  if isAvailable store now p then
    let r := search p img perProviderTimeout in
    if (overallDeadline <? elapsed r)%N then ([], Errored NetworkTimeout)
    else match outcome r with
         | Returned cs => (cs, Succeeded (length cs))
         | Failed e => ([], Errored e)
         end
  else ([], Unavailable).

Definition record_status (now : N) (store : gmap string Breaker)
    (n : string) (s : ProviderStatus) : gmap string Breaker :=
  match s with
  | Succeeded _ => <[n := Closed 0]> store
  | Errored e =>
      match admits now (breaker_of store n) with
      | Some b => <[n := on_failure now e b]> store
      | None => store
      end
  | Unavailable => store
  end.

(** Modelled from the spec: [searchAll(image, perProviderTimeout,
    overallDeadline) -> []RawCandidate, stats] (section 4.3), with the
    breaker store passed in and out.  The provider tasks are independent;
    their buffers are joined in provider order. *)
Definition searchAll (providers : list ProviderClient)
    (store : gmap string Breaker) (now : N)
    (img : Image) (perProviderTimeout overallDeadline : N)
  : SearchError + (list RawCandidate * SearchEngineStats * gmap string Breaker) :=
  if valid_image img then
    let runs := (fun p => (name p, invoke store now img perProviderTimeout
                                     overallDeadline p)) <$> providers in
    let candidates := runs ≫= (fun r => fst (snd r)) in
    let statuses := (fun r => (fst r, snd (snd r))) <$> runs in
    let store' := fold_left (fun st ns => record_status now st (fst ns) (snd ns))
                    statuses store in
    inr (candidates,
         mkStats statuses (forallb (fun ns => negb (is_success (snd ns))) statuses),
         store')
  else inl InvalidImage.

End SearchAll.

(** A run in which nothing comes back: one provider is rate limited, one
    has no credentials, one has its breaker open, and one answers only
    after the overall deadline. *)
Definition sample_image : Image := mkImage 640 480 [].

Definition sample_providers : list ProviderClient :=
  [ mkProviderClient "alpha" true (fun _ _ => mkCallResult (Failed RateLimited) 3);
    mkProviderClient "beta" false (fun _ _ => mkCallResult (Returned []) 1);
    mkProviderClient "gamma" true (fun _ _ => mkCallResult (Returned []) 1);
    mkProviderClient "delta" true
      (fun _ _ => mkCallResult
                    (Returned [mkRawCandidate "http://a.example/x" "X" None "delta"
                                 (6 # 10) None ∅]) 45) ].

Definition sample_store : gmap string Breaker := {[ "gamma" := Open 90 ]}.

End Orchestrator.

(** ** Front end: the batch-capable application (part_003) *)

Module BatchApp.
Import Frontend.

(** The browser's [File], by the members the code reads. *)
Record File := mkFile {
  file_name : string;
  file_type : string;
  file_size : nat
}.

Module UploadResponse.
Record t := mk {
  success : bool;
  file_id : string;
  original_filename : string;
  file_size : nat;
  file_url : string
}.
End UploadResponse.

Module ResultsResponse.
Record t := mk {
  success : bool;
  image_id : string;
  analysis_status : string;
  message : string;
  found_urls_count : option nat;
  processed_results_count : option nat;
  results : option (list AnalysisResult);
  original_filename : option string;
  analysis_time : option string
}.
End ResultsResponse.

Module HistoryEntry.
Record t := mk {
  history_id : string;
  image_id : string;
  image_hash : string;
  original_filename : string;
  analysis_date : string;
  analysis_timestamp : nat;
  found_urls_count : nat;
  processed_results_count : nat;
  safe_count : nat;
  suspicious_count : nat;
  unknown_count : nat
}.
End HistoryEntry.

Module HistoryResponse.
Record t := mk {
  success : bool;
  total_history_count : nat;
  history : list HistoryEntry.t
}.
End HistoryResponse.

Module BatchUploadFile.
Record t := mk {
  file_id : string;
  filename : string;
  size : nat;
  status : string
}.
End BatchUploadFile.

Module BatchUploadResponse.
Record t := mk {
  success : bool;
  total_files : nat;
  uploaded_count : nat;
  error_count : nat;
  total_size : nat;
  files : list BatchUploadFile.t;
  errors : list (string * string * string);
  upload_time : string
}.
End BatchUploadResponse.

(** [status] is one of 'pending', 'processing', 'completed', 'error' by its
    type, but it arrives from JSON and the code only tests it for equality. *)
Module BatchFileStatus.
Record t := mk {
  file_id : string;
  filename : string;
  status : string;
  progress : nat;
  results_count : option nat;
  error : option string
}.
End BatchFileStatus.

Module BatchJobStatus.
Record t := mk {
  batch_id : string;
  total_files : nat;
  completed_files : nat;
  status : string;
  start_time : string;
  end_time : option string;
  files : list BatchFileStatus.t;
  error : option string
}.
End BatchJobStatus.

(** The body of the answer to [POST /batch-search], by the members read. *)
Module BatchSearchResponse.
Record t := mk {
  success : bool;
  batch_id : string
}.
End BatchSearchResponse.

Module Toast.
Inductive ToastType := success | error.
Record t := mk {
  message : string;
  type : ToastType
}.
End Toast.

Inductive Step := upload | analyze | results.

(** What an awaited request comes back with: the response data, or the
    message the [catch] block reads from the error it caught
    ([err.response?.data?.detail || err.message]). *)
Inductive Reply (A : Type) :=
| Resolved (data : A)
| Rejected (detail : string).
Arguments Resolved {A} data.
Arguments Rejected {A} detail.

(** The state of [App]: one field per [useState] variable (part_003,
    l.410-432). *)
Record AppState := mkAppState {
  selectedFile : option File;
  uploadData : option UploadResponse.t;
  analysisResults : option ResultsResponse.t;
  selectedFiles : list File;
  batchUploadData : option BatchUploadResponse.t;
  batchJobStatus : option BatchJobStatus.t;
  activeTab : string;
  isBatchMode : bool;
  loading : bool;
  error : option string;
  currentStep : Step;
  showToast : option Toast.t;
  historyData : option HistoryResponse.t;
  diffData : option DiffResponse;
  showHistory : bool;
  uploadProgress : Z;
  batchResults : gmap string ResultsResponse.t;
  showBatchResults : bool
}.

(** The setters.  React applies the updates a handler queues in order, so a
    handler is the composition of its setter calls. *)
Definition setSelectedFile (v : option File) (s : AppState) : AppState :=
  mkAppState v (uploadData s) (analysisResults s) (selectedFiles s)
    (batchUploadData s) (batchJobStatus s) (activeTab s) (isBatchMode s)
    (loading s) (error s) (currentStep s) (showToast s) (historyData s)
    (diffData s) (showHistory s) (uploadProgress s) (batchResults s)
    (showBatchResults s).

Definition setUploadData (v : option UploadResponse.t) (s : AppState) : AppState :=
  mkAppState (selectedFile s) v (analysisResults s) (selectedFiles s)
    (batchUploadData s) (batchJobStatus s) (activeTab s) (isBatchMode s)
    (loading s) (error s) (currentStep s) (showToast s) (historyData s)
    (diffData s) (showHistory s) (uploadProgress s) (batchResults s)
    (showBatchResults s).

Definition setAnalysisResults (v : option ResultsResponse.t) (s : AppState) : AppState :=
  mkAppState (selectedFile s) (uploadData s) v (selectedFiles s)
    (batchUploadData s) (batchJobStatus s) (activeTab s) (isBatchMode s)
    (loading s) (error s) (currentStep s) (showToast s) (historyData s)
    (diffData s) (showHistory s) (uploadProgress s) (batchResults s)
    (showBatchResults s).

Definition setSelectedFiles (v : list File) (s : AppState) : AppState :=
  mkAppState (selectedFile s) (uploadData s) (analysisResults s) v
    (batchUploadData s) (batchJobStatus s) (activeTab s) (isBatchMode s)
    (loading s) (error s) (currentStep s) (showToast s) (historyData s)
    (diffData s) (showHistory s) (uploadProgress s) (batchResults s)
    (showBatchResults s).

Definition setBatchUploadData (v : option BatchUploadResponse.t) (s : AppState) : AppState :=
  mkAppState (selectedFile s) (uploadData s) (analysisResults s)
    (selectedFiles s) v (batchJobStatus s) (activeTab s) (isBatchMode s)
    (loading s) (error s) (currentStep s) (showToast s) (historyData s)
    (diffData s) (showHistory s) (uploadProgress s) (batchResults s)
    (showBatchResults s).

Definition setBatchJobStatus (v : option BatchJobStatus.t) (s : AppState) : AppState :=
  mkAppState (selectedFile s) (uploadData s) (analysisResults s)
    (selectedFiles s) (batchUploadData s) v (activeTab s) (isBatchMode s)
    (loading s) (error s) (currentStep s) (showToast s) (historyData s)
    (diffData s) (showHistory s) (uploadProgress s) (batchResults s)
    (showBatchResults s).

Definition setActiveTab (v : string) (s : AppState) : AppState :=
  mkAppState (selectedFile s) (uploadData s) (analysisResults s)
    (selectedFiles s) (batchUploadData s) (batchJobStatus s) v
    (isBatchMode s) (loading s) (error s) (currentStep s) (showToast s)
    (historyData s) (diffData s) (showHistory s) (uploadProgress s)
    (batchResults s) (showBatchResults s).

Definition setIsBatchMode (v : bool) (s : AppState) : AppState :=
  mkAppState (selectedFile s) (uploadData s) (analysisResults s)
    (selectedFiles s) (batchUploadData s) (batchJobStatus s) (activeTab s) v
    (loading s) (error s) (currentStep s) (showToast s) (historyData s)
    (diffData s) (showHistory s) (uploadProgress s) (batchResults s)
    (showBatchResults s).

Definition setLoading (v : bool) (s : AppState) : AppState :=
  mkAppState (selectedFile s) (uploadData s) (analysisResults s)
    (selectedFiles s) (batchUploadData s) (batchJobStatus s) (activeTab s)
    (isBatchMode s) v (error s) (currentStep s) (showToast s)
    (historyData s) (diffData s) (showHistory s) (uploadProgress s)
    (batchResults s) (showBatchResults s).

Definition setError (v : option string) (s : AppState) : AppState :=
  mkAppState (selectedFile s) (uploadData s) (analysisResults s)
    (selectedFiles s) (batchUploadData s) (batchJobStatus s) (activeTab s)
    (isBatchMode s) (loading s) v (currentStep s) (showToast s)
    (historyData s) (diffData s) (showHistory s) (uploadProgress s)
    (batchResults s) (showBatchResults s).

Definition setCurrentStep (v : Step) (s : AppState) : AppState :=
  mkAppState (selectedFile s) (uploadData s) (analysisResults s)
    (selectedFiles s) (batchUploadData s) (batchJobStatus s) (activeTab s)
    (isBatchMode s) (loading s) (error s) v (showToast s) (historyData s)
    (diffData s) (showHistory s) (uploadProgress s) (batchResults s)
    (showBatchResults s).

Definition setShowToast (v : option Toast.t) (s : AppState) : AppState :=
  mkAppState (selectedFile s) (uploadData s) (analysisResults s)
    (selectedFiles s) (batchUploadData s) (batchJobStatus s) (activeTab s)
    (isBatchMode s) (loading s) (error s) (currentStep s) v (historyData s)
    (diffData s) (showHistory s) (uploadProgress s) (batchResults s)
    (showBatchResults s).

Definition setHistoryData (v : option HistoryResponse.t) (s : AppState) : AppState :=
  mkAppState (selectedFile s) (uploadData s) (analysisResults s)
    (selectedFiles s) (batchUploadData s) (batchJobStatus s) (activeTab s)
    (isBatchMode s) (loading s) (error s) (currentStep s) (showToast s) v
    (diffData s) (showHistory s) (uploadProgress s) (batchResults s)
    (showBatchResults s).

Definition setDiffData (v : option DiffResponse) (s : AppState) : AppState :=
  mkAppState (selectedFile s) (uploadData s) (analysisResults s)
    (selectedFiles s) (batchUploadData s) (batchJobStatus s) (activeTab s)
    (isBatchMode s) (loading s) (error s) (currentStep s) (showToast s)
    (historyData s) v (showHistory s) (uploadProgress s) (batchResults s)
    (showBatchResults s).

Definition setShowHistory (v : bool) (s : AppState) : AppState :=
  mkAppState (selectedFile s) (uploadData s) (analysisResults s)
    (selectedFiles s) (batchUploadData s) (batchJobStatus s) (activeTab s)
    (isBatchMode s) (loading s) (error s) (currentStep s) (showToast s)
    (historyData s) (diffData s) v (uploadProgress s) (batchResults s)
    (showBatchResults s).

Definition setUploadProgress (v : Z) (s : AppState) : AppState :=
  mkAppState (selectedFile s) (uploadData s) (analysisResults s)
    (selectedFiles s) (batchUploadData s) (batchJobStatus s) (activeTab s)
    (isBatchMode s) (loading s) (error s) (currentStep s) (showToast s)
    (historyData s) (diffData s) (showHistory s) v (batchResults s)
    (showBatchResults s).

Definition setBatchResults (v : gmap string ResultsResponse.t) (s : AppState) : AppState :=
  mkAppState (selectedFile s) (uploadData s) (analysisResults s)
    (selectedFiles s) (batchUploadData s) (batchJobStatus s) (activeTab s)
    (isBatchMode s) (loading s) (error s) (currentStep s) (showToast s)
    (historyData s) (diffData s) (showHistory s) (uploadProgress s) v
    (showBatchResults s).

Definition setShowBatchResults (v : bool) (s : AppState) : AppState :=
  mkAppState (selectedFile s) (uploadData s) (analysisResults s)
    (selectedFiles s) (batchUploadData s) (batchJobStatus s) (activeTab s)
    (isBatchMode s) (loading s) (error s) (currentStep s) (showToast s)
    (historyData s) (diffData s) (showHistory s) (uploadProgress s)
    (batchResults s) v.

Definition initialState : AppState :=
  mkAppState None None None [] None None "overview" false false None upload None
    None None false 0 ∅ false.

(** [showSuccessToast] and [showErrorToast] (l.935-943); the timer that
    clears the toast three seconds later is a later event. *)
Definition showSuccessToast (message : string) (s : AppState) : AppState :=
  setShowToast (Some (Toast.mk message Toast.success)) s.

Definition showErrorToast (message : string) (s : AppState) : AppState :=
  setShowToast (Some (Toast.mk message Toast.error)) s.

(** *** Choosing files (l.435-508) *)

(** [handleFileSelect]; a missing or empty [FileList] returns at once. *)
Definition handleFileSelect (files : list File) (s : AppState) : AppState :=
  match files with
  | [] => s
  | [f] =>
      setError None
        (setIsBatchMode false (setSelectedFiles [] (setSelectedFile (Some f) s)))
  | _ =>
      setError None
        (setIsBatchMode true (setSelectedFile None (setSelectedFiles files s)))
  end.

Definition MAX_FILES : nat := 10.

Definition isValid (file : File) : bool :=
  String.prefix "image/" (file_type file)
  || String.eqb (file_type file) "application/pdf".

(** [Array.from(files).filter(file => { ... })]: the callback keeps the
    valid files and raises a toast for each file it drops, in order. *)
Fixpoint filterValid (files : list File) (s : AppState) : list File * AppState :=
  match files with
  | [] => ([], s)
  | file :: rest =>
      if isValid file then
        let '(kept, s') := filterValid rest s in (file :: kept, s')
      else
        filterValid rest
          (showErrorToast
             (file_name file ++ " は画像またはPDFファイルではありません") s)
  end.

(** [handleFileDrop]. *)
Definition handleFileDrop (files : list File) (s : AppState) : AppState :=
  match files with
  | [] => s
  | _ =>
      if (MAX_FILES <? length files)%nat then
        setError (Some "ファイル数は最大10個までです") s
      else
        let '(validFiles, s1) := filterValid files s in
        match validFiles with
        | [] => setError (Some "有効な画像またはPDFファイルがありません") s1
        | [f] =>
            setError None
              (setIsBatchMode false
                 (setSelectedFiles [] (setSelectedFile (Some f) s1)))
        | _ =>
            setError None
              (setIsBatchMode true
                 (setSelectedFile None (setSelectedFiles validFiles s1)))
        end
  end.

(** [Array.prototype.filter] with the two-argument callback [(x, i) => ...]. *)
Fixpoint filter_indexed {A} (f : A -> nat -> bool) (i : nat) (l : list A) : list A :=
  match l with
  | [] => []
  | x :: rest =>
      if f x i then x :: filter_indexed f (S i) rest
      else filter_indexed f (S i) rest
  end.

Definition is_empty {A} (l : list A) : bool :=
  match l with [] => true | _ => false end.

(** [removeFile]. *)
Definition removeFile (index : nat) (s : AppState) : AppState :=
  let newFiles :=
    filter_indexed (fun _ i => negb (i =? index)%nat) 0 (selectedFiles s) in
  let s1 := setSelectedFiles newFiles s in
  if is_empty newFiles then setIsBatchMode false s1 else s1.

(** [clearAllFiles]. *)
Definition clearAllFiles (s : AppState) : AppState :=
  setError None
    (setBatchJobStatus None
       (setBatchUploadData None
          (setIsBatchMode false (setSelectedFile None (setSelectedFiles [] s))))).

(** [handleReset] (l.946-967). *)
Definition handleReset (s : AppState) : AppState :=
  setUploadProgress 0
    (setDiffData None
       (setShowToast None
          (setCurrentStep upload
             (setError None
                (setActiveTab "overview"
                   (setIsBatchMode false
                      (setShowBatchResults false
                         (setBatchResults ∅
                            (setBatchJobStatus None
                               (setBatchUploadData None
                                  (setSelectedFiles []
                                     (setAnalysisResults None
                                        (setUploadData None
                                           (setSelectedFile None s)))))))))))))).

(** The events that change the selection. *)
Inductive SelectionEvent :=
| FileSelect (files : list File)
| FileDrop (files : list File)
| RemoveFile (index : nat)
| ClearAllFiles
| ResetAll.

Definition selectionStep (s : AppState) (e : SelectionEvent) : AppState :=
  match e with
  | FileSelect files => handleFileSelect files s
  | FileDrop files => handleFileDrop files s
  | RemoveFile index => removeFile index s
  | ClearAllFiles => clearAllFiles s
  | ResetAll => handleReset s
  end.

(** The files the upload would send. *)
Definition selection (s : AppState) : list File :=
  match selectedFile s with
  | Some f => f :: selectedFiles s
  | None => selectedFiles s
  end.

(** What the handlers keep true of the selection. *)
Definition selection_consistent (s : AppState) : Prop :=
  isBatchMode s = negb (is_empty (selectedFiles s))
  /\ (selectedFiles s <> [] -> selectedFile s = None).

(** *** Uploading (l.512-633, l.1404-1405) *)

(** The synchronous start of [handleUpload] and of [handleBatchUpload]: the
    guard, then the three updates made before the request is sent.  The
    flag tells whether the request goes out. *)
Definition handleUpload_start (s : AppState) : AppState * bool :=
  match selectedFile s with
  | None => (setError (Some "ファイルを選択してください") s, false)
  | Some _ => (setUploadProgress 0 (setError None (setLoading true s)), true)
  end.

Definition handleBatchUpload_start (s : AppState) : AppState * bool :=
  if (length (selectedFiles s) =? 0)%nat then
    (setError (Some "ファイルを選択してください") s, false)
  else (setUploadProgress 0 (setError None (setLoading true s)), true).

(** The upload button: [disabled={(!selectedFile && selectedFiles.length
    === 0) || loading}] and [onClick={isBatchMode ? handleBatchUpload :
    handleUpload}]. *)
Definition uploadDisabled (s : AppState) : bool :=
  (negb (bool_decide (is_Some (selectedFile s)))
   && (length (selectedFiles s) =? 0)%nat)
  || loading s.

Definition uploadClick (s : AppState) : AppState * bool :=
  if isBatchMode s then handleBatchUpload_start s else handleUpload_start s.

(** The callback of the progress timer: [prev => { if (prev >= 90) {
    clearInterval(progressInterval); return 90 } return prev + step }], with
    step 10 every 200 ms for one file and 5 every 300 ms for a batch.  The
    flag tells whether the timer was cleared. *)
Definition progressTick (step : Z) (prev : Z) : Z * bool :=
  if (90 <=? prev)%Z then (90%Z, true) else ((prev + step)%Z, false).

Definition SINGLE_STEP : Z := 10.
Definition BATCH_STEP : Z := 5.

(** The bar after [n] firings of the timer. *)
Fixpoint simulatedProgress (step : Z) (n : nat) (start : Z) : Z :=
  match n with
  | O => start
  | S n' => simulatedProgress step n' (fst (progressTick step start))
  end.

(** *** Analysing (l.636-756) *)

(** [fetchDiffData]: the response is stored; a failed request is logged and
    changes nothing. *)
Definition fetchDiffData (reply : Reply DiffResponse) (s : AppState) : AppState :=
  match reply with
  | Resolved d => setDiffData (Some d) s
  | Rejected _ => s
  end.

(** [fetchHistory]. *)
Definition fetchHistory (reply : Reply HistoryResponse.t) (s : AppState) : AppState :=
  match reply with
  | Resolved h => setHistoryData (Some h) s
  | Rejected detail => showErrorToast ("履歴取得エラー: " ++ detail) s
  end.

(** [handleAnalyze], given what each request it awaits comes back with:
    the search ([success] of its body), the results, the diff, the history. *)
Definition handleAnalyze (search : Reply bool) (res : Reply ResultsResponse.t)
    (diff : Reply DiffResponse) (hist : Reply HistoryResponse.t)
    (s : AppState) : AppState :=
  match uploadData s with
  | None => s
  | Some _ =>
      let s1 := setError None (setCurrentStep analyze (setLoading true s)) in
      let s2 :=
        match search with
        | Rejected detail => setError (Some ("分析エラー: " ++ detail)) s1
        | Resolved false => s1
        | Resolved true =>
            match res with
            | Rejected detail => setError (Some ("分析エラー: " ++ detail)) s1
            | Resolved r =>
                let s3 := setCurrentStep results (setAnalysisResults (Some r) s1) in
                let s4 := fetchDiffData diff s3 in
                if showHistory s then fetchHistory hist s4 else s4
            end
        end in
      setLoading false s2
  end.

(** [fetchBatchResults]: one request per completed file, in order;
    [results[file.file_id] = response.data] on the object literal [{}].  The
    assignment creates or replaces the property of that name, except for
    the name "__proto__", which replaces the prototype of the object and
    creates no property.  [batchResults] holds the properties of the object,
    which is what [Object.keys] and [Object.entries] list. *)
Definition assignProperty (name : string) (r : ResultsResponse.t)
    (acc : gmap string ResultsResponse.t) : gmap string ResultsResponse.t :=
  if String.eqb name "__proto__" then acc else <[name := r]> acc.

Definition collectResult (fetch : BatchFileStatus.t -> Reply ResultsResponse.t)
    (acc : gmap string ResultsResponse.t) (file : BatchFileStatus.t)
  : gmap string ResultsResponse.t :=
  if String.eqb (BatchFileStatus.status file) "completed" then
    match fetch file with
    | Resolved r =>
        if ResultsResponse.success r
        then assignProperty (BatchFileStatus.file_id file) r acc
        else acc
    | Rejected _ => acc
    end
  else acc.

(** The collected object replaces [batchResults]. *)
Definition fetchBatchResults (fetch : BatchFileStatus.t -> Reply ResultsResponse.t)
    (files : list BatchFileStatus.t) (s : AppState) : AppState :=
  setBatchResults (fold_left (collectResult fetch) files ∅) s.

(** The callback of the monitoring timer of [startBatchProgressMonitoring]
    (l.709-735).  It is asynchronous: the timer fires again without waiting
    for the previous request, and clearing the timer cancels nothing that
    is under way, so each part of each callback takes effect whenever its
    request is answered.  A callback has two parts.

    The first runs when the status request is answered: the status is
    stored; a status 'completed' or 'error' clears the timer and the loading
    flag and enters the results step; a failed request clears the timer
    and the loading flag.  The flag tells whether the timer was cleared. *)
Definition statusAnswered (status : Reply BatchJobStatus.t) (s : AppState)
  : AppState * bool :=
  match status with
  | Rejected _ => (setLoading false s, true)
  | Resolved st =>
      let s1 := setBatchJobStatus (Some st) s in
      if String.eqb (BatchJobStatus.status st) "completed"
         || String.eqb (BatchJobStatus.status st) "error" then
        let s2 := setCurrentStep results (setLoading false s1) in
        if String.eqb (BatchJobStatus.status st) "completed" then
          (showSuccessToast "バッチ分析が完了しました" s2, true)
        else (showErrorToast "バッチ分析でエラーが発生しました" s2, true)
      else (s1, false)
  end.

(** The rest exists for a status 'completed' only.  When the results of
    its files have been requested, [fetchBatchResults] stores them; when
    the callback resumes after that, they are shown on the overview tab. *)
Definition resultsStored (st : BatchJobStatus.t)
    (fetch : BatchFileStatus.t -> Reply ResultsResponse.t)
    (s : AppState) : AppState :=
  if String.eqb (BatchJobStatus.status st) "completed" then
    fetchBatchResults fetch (BatchJobStatus.files st) s
  else s.

Definition resultsShown (st : BatchJobStatus.t) (s : AppState) : AppState :=
  if String.eqb (BatchJobStatus.status st) "completed" then
    setActiveTab "overview" (setShowBatchResults true s)
  else s.

(** What the monitoring does to the state, in the order it happens. *)
Inductive MonitorEvent :=
| Answered (status : Reply BatchJobStatus.t)
| Stored (st : BatchJobStatus.t)
    (fetch : BatchFileStatus.t -> Reply ResultsResponse.t)
| Shown (st : BatchJobStatus.t).

Definition monitorStep (s : AppState) (e : MonitorEvent) : AppState :=
  match e with
  | Answered status => fst (statusAnswered status s)
  | Stored st fetch => resultsStored st fetch s
  | Shown st => resultsShown st s
  end.

(** [handleBatchAnalyze], given the answer to the search request.  The
    second component is the batch whose monitoring it starts, if any. *)
Definition handleBatchAnalyze (search : Reply BatchSearchResponse.t)
    (s : AppState) : AppState * option string :=
  match batchUploadData s with
  | None => (s, None)
  | Some d =>
      if (length (BatchUploadResponse.files d) =? 0)%nat then (s, None)
      else
        let s1 := setError None (setCurrentStep analyze (setLoading true s)) in
        match search with
        | Resolved r =>
            if BatchSearchResponse.success r then
              (showSuccessToast "バッチ分析を開始しました" s1,
               Some (BatchSearchResponse.batch_id r))
            else (s1, None)
        | Rejected detail =>
            (setLoading false (setError (Some ("バッチ分析エラー: " ++ detail)) s1),
             None)
        end
  end.

(** A status answer that clears the timer. *)
Definition ends_monitoring (status : Reply BatchJobStatus.t) : bool :=
  match status with
  | Rejected _ => true
  | Resolved st =>
      String.eqb (BatchJobStatus.status st) "completed"
      || String.eqb (BatchJobStatus.status st) "error"
  end.

Definition clears_loading (e : MonitorEvent) : bool :=
  match e with
  | Answered status => ends_monitoring status
  | _ => false
  end.

Definition stores_results (e : MonitorEvent) : bool :=
  match e with
  | Stored st _ => String.eqb (BatchJobStatus.status st) "completed"
  | _ => false
  end.

Definition shows_results (e : MonitorEvent) : bool :=
  match e with
  | Shown st => String.eqb (BatchJobStatus.status st) "completed"
  | _ => false
  end.

(** *** The results of one file in the batch view (l.2181-2264) *)

(** [renderResultSection]: nothing for an empty section. *)
Definition renderResultSection (title : string) (sectionResults : list AnalysisResult)
  : option (string * list AnalysisResult) :=
  if (length sectionResults =? 0)%nat then None else Some (title, sectionResults).

(** The sections of the tab of one file, in the order they are rendered. *)
Definition fileTabSections (results : list AnalysisResult)
  : list (string * list AnalysisResult) :=
  let safeResults := List.filter (fun r => String.eqb (judgment r) "○") results in
  let dangerResults := List.filter (fun r => String.eqb (judgment r) "×") results in
  let warningResults := List.filter (fun r => String.eqb (judgment r) "！") results in
  let unknownResults := List.filter (fun r => String.eqb (judgment r) "？") results in
  omap id
    [ renderResultSection "出版社公式" safeResults;
      renderResultSection "要注意サイト" warningResults;
      renderResultSection "情報不足" unknownResults;
      renderResultSection "危険サイト" dangerResults ].

(** The body of the tab: the sections when the file has results, the
    "no results" message otherwise. *)
Definition fileTabBody (results : option (list AnalysisResult))
  : option (list (string * list AnalysisResult)) :=
  match results with
  | Some (r :: rest) => Some (fileTabSections (r :: rest))
  | _ => None
  end.

(** The results a tab shows, section after section. *)
Definition shownInTab (results : list AnalysisResult) : list AnalysisResult :=
  fileTabSections results ≫= snd.

(** The diff state after a sequence of fetch and reset events. *)
Definition diffAfter (events : list DiffEvent) (st : option DiffResponse)
  : option DiffResponse :=
  fold_left diffStep events st.

(** The last event that is not a failed fetch. *)
Fixpoint lastEffective (events : list DiffEvent) : option DiffEvent :=
  match events with
  | [] => None
  | e :: rest =>
      match lastEffective rest with
      | Some e' => Some e'
      | None => match e with FetchFailed => None | _ => Some e end
      end
  end.

End BatchApp.

(** ** Front end: the dashboard (part_000) *)

Module Dashboard.

(** [judgment_distribution] of [DashboardStats], keyed by the four marks. *)
Record JudgmentDistribution := mkDistribution {
  count_safe : Z;       (* "○" *)
  count_danger : Z;     (* "×" *)
  count_unknown : Z;    (* "？" *)
  count_warning : Z     (* "！" *)
}.

(** [daily_stats] is an object; its entries are kept in the order
    [Object.entries] lists them. *)
Record DashboardStats := mkStats {
  daily_stats : list (string * Z);
  judgment_distribution : JudgmentDistribution;
  total_scans : Z;
  total_detections : Z
}.

Record PieItem := mkPieItem {
  name : string;
  value : Z;
  key : string
}.

(** [pieData] (part_000, l.158-163). *)
Definition pieData (stats : option DashboardStats) : list PieItem :=
  match stats with
  | Some st =>
      List.filter (fun item => (0 <? value item)%Z)
        [ mkPieItem "安全" (count_safe (judgment_distribution st)) "○";
          mkPieItem "危険" (count_danger (judgment_distribution st)) "×";
          mkPieItem "不明" (count_unknown (judgment_distribution st)) "？";
          mkPieItem "要注意" (count_warning (judgment_distribution st)) "！" ]
  | None => []
  end.

(** [Array.prototype.slice(-k)]: the last [k] elements, all of them when
    there are fewer. *)
Definition slice_last {A} (k : nat) (l : list A) : list A :=
  drop (length l - k) l.

Record BarItem := mkBarItem {
  date : string;
  count : Z;
  fullDate : string
}.

Section BarData.
(** The label [new Date(date).toLocaleDateString('ja-JP', ...)] computes. *)
Variable toLocaleDateString : string -> string.

(** [barData] (part_000, l.165-171). *)
Definition barData (stats : option DashboardStats) : list BarItem :=
  match stats with
  | Some st =>
      (fun '(d, c) => mkBarItem (toLocaleDateString d) c d)
        <$> slice_last 7 (daily_stats st)
  | None => []
  end.

End BarData.

End Dashboard.

(** ** The earlier SerpAPI criterion (part_005) *)

Module SerpApiNotes.

(** Before the three-hash test the client compared the pHash alone:
    [hash_distance = input_hash - thumbnail_hash] and
    [if hash_distance <= 2] (part_005, l.9-12). *)
Definition legacy_match (hash_distance : nat) : bool := (hash_distance <=? 2)%nat.

End SerpApiNotes.

(** * Properties *)

(** ** Front end *)

Module FrontendFacts.
Import Frontend.

Lemma summary_step_total acc r : total (summary_step acc r) = S (total acc).
Proof.
  unfold summary_step, total.
  repeat (destruct (String.eqb _ _)); simpl; lia.
Qed.

Lemma summary_step_counts acc r :
  safe (summary_step acc r) = (safe acc + (if is_safe r then 1 else 0))%nat
  /\ dangerous (summary_step acc r) = (dangerous acc + (if is_danger r then 1 else 0))%nat
  /\ warning (summary_step acc r) = (warning acc + (if is_warning r then 1 else 0))%nat
  /\ unknown (summary_step acc r) = (unknown acc + (if is_other r then 1 else 0))%nat.
Proof.
  unfold summary_step, is_other, is_safe, is_danger, is_warning.
  destruct (String.eqb (judgment r) J_SAFE) eqn:Hs.
  - apply String.eqb_eq in Hs. rewrite Hs. simpl. repeat split; lia.
  - destruct (String.eqb (judgment r) J_DANGER) eqn:Hd.
    + apply String.eqb_eq in Hd. rewrite Hd. simpl. repeat split; lia.
    + destruct (String.eqb (judgment r) J_WARNING); simpl; repeat split; lia.
Qed.

Lemma count_cons f r rs :
  count f (r :: rs) = ((if f r then 1 else 0) + count f rs)%nat.
Proof. unfold count. simpl. destruct (f r); reflexivity. Qed.

Lemma reduce_counts rs : forall acc,
  let s := reduce summary_step acc rs in
  safe s = (safe acc + count is_safe rs)%nat
  /\ dangerous s = (dangerous acc + count is_danger rs)%nat
  /\ warning s = (warning acc + count is_warning rs)%nat
  /\ unknown s = (unknown acc + count is_other rs)%nat.
Proof.
  induction rs as [|r rs IH]; intros acc; simpl.
  - unfold count; simpl. repeat split; lia.
  - destruct (IH (summary_step acc r)) as (H1 & H2 & H3 & H4).
    destruct (summary_step_counts acc r) as (S1 & S2 & S3 & S4).
    unfold reduce in *. simpl in *.
    rewrite H1, H2, H3, H4, S1, S2, S3, S4, !count_cons.
    repeat split; lia.
Qed.

Lemma reduce_total rs : forall acc,
  total (reduce summary_step acc rs) = (total acc + length rs)%nat.
Proof.
  unfold reduce.
  induction rs as [|r rs IH]; intros acc; simpl.
  - lia.
  - rewrite IH, summary_step_total. lia.
Qed.

(** C8: the per-file summary of the batch overview puts every result in
    exactly one of the four counters (safe for the circle mark, dangerous
    for the cross, warning for the exclamation mark, unknown for anything
    else), so the four counts add up to the number of results. *)
Theorem summary_partitions_results (rs : list AnalysisResult) :
  let s := summary (Some rs) in
  safe s = count is_safe rs
  /\ dangerous s = count is_danger rs
  /\ warning s = count is_warning rs
  /\ unknown s = count is_other rs
  /\ (safe s + dangerous s + warning s + unknown s)%nat = length rs.
Proof.
  simpl.
  destruct (reduce_counts rs summary0) as (H1 & H2 & H3 & H4).
  pose proof (reduce_total rs summary0) as Ht.
  unfold total in Ht. simpl in *.
  repeat split; assumption.
Qed.

Example summary_example :
  summary (Some [ mkAnalysisResult "a" J_SAFE ""; mkAnalysisResult "b" J_WARNING "";
                  mkAnalysisResult "c" J_UNKNOWN ""; mkAnalysisResult "d" "?" "";
                  mkAnalysisResult "e" J_DANGER "" ])
  = mkSummary 1 1 1 2.
Proof. reflexivity. Qed.

Example summary_undefined : summary None = mkSummary 0 0 0 0.
Proof. reflexivity. Qed.

(** *** The three columns *)

Lemma in_filter_iff (f : AnalysisResult -> bool) r rs :
  In r (List.filter f rs) <-> In r rs /\ f r = true.
Proof. apply filter_In. Qed.

Lemma marks_distinct :
  J_SAFE <> J_DANGER /\ J_SAFE <> J_UNKNOWN /\ J_SAFE <> J_WARNING
  /\ J_DANGER <> J_UNKNOWN /\ J_DANGER <> J_WARNING /\ J_UNKNOWN <> J_WARNING.
Proof. repeat split; discriminate. Qed.

Lemma classes_exclusive r :
  (is_safe r = true -> is_danger r = false /\ is_unknown r = false /\ is_warning r = false)
  /\ (is_danger r = true -> is_unknown r = false /\ is_warning r = false).
Proof.
  unfold is_safe, is_danger, is_unknown, is_warning.
  split; intros H; apply String.eqb_eq in H; rewrite H; repeat split; reflexivity.
Qed.

Lemma columns_count rs :
  (count is_safe rs + count (fun r => is_unknown r || is_warning r) rs
   + count is_danger rs)%nat = count is_known rs.
Proof.
  induction rs as [|r rs IH]; [reflexivity|].
  rewrite !count_cons, <- IH. unfold is_known.
  destruct (classes_exclusive r) as [Hs Hd].
  destruct (is_safe r) eqn:E1.
  - destruct (Hs eq_refl) as (-> & -> & ->). simpl. lia.
  - destruct (is_danger r) eqn:E2.
    + destruct (Hd eq_refl) as (-> & ->). simpl. lia.
    + destruct (is_unknown r), (is_warning r); simpl; lia.
Qed.

(** C9: in the three-column view the groups keyed by the circle, question
    and cross marks are pairwise disjoint and together hold every result
    whose judgment is one of the four marks; a result judged with the
    exclamation mark is shown in the question-mark column. *)
Theorem grouped_columns_partition (rs : list AnalysisResult) :
  let g := groupedResults rs in
  (forall r, ~ (In r (g_safe g) /\ In r (g_unknown g)))
  /\ (forall r, ~ (In r (g_safe g) /\ In r (g_danger g)))
  /\ (forall r, ~ (In r (g_unknown g) /\ In r (g_danger g)))
  /\ (forall r, In r rs -> is_known r = true ->
                In r (g_safe g) \/ In r (g_unknown g) \/ In r (g_danger g))
  /\ (forall r, In r rs -> judgment r = J_WARNING ->
                In r (g_unknown g) /\ ~ In r (g_safe g) /\ ~ In r (g_danger g))
  /\ (length (g_safe g) + length (g_unknown g) + length (g_danger g))%nat
     = count is_known rs.
Proof.
  simpl. repeat split.
  - intros r [H1 H2]. apply in_filter_iff in H1, H2.
    destruct H1 as [_ H1], H2 as [_ H2].
    destruct (classes_exclusive r) as [Hs _].
    destruct (Hs H1) as (_ & Hu & Hw).
    unfold is_unknown, is_warning in *. rewrite Hu, Hw in H2. discriminate.
  - intros r [H1 H2]. apply in_filter_iff in H1, H2.
    destruct H1 as [_ H1], H2 as [_ H2].
    destruct (classes_exclusive r) as [Hs _].
    destruct (Hs H1) as (Hd & _). unfold is_danger in Hd. congruence.
  - intros r [H1 H2]. apply in_filter_iff in H1, H2.
    destruct H1 as [_ H1], H2 as [_ H2].
    destruct (classes_exclusive r) as [_ Hd].
    destruct (Hd H2) as (Hu & Hw).
    unfold is_unknown, is_warning in *. rewrite Hu, Hw in H1. discriminate.
  - intros r Hin Hk. unfold is_known in Hk.
    rewrite !in_filter_iff.
    unfold is_safe, is_danger, is_unknown, is_warning in Hk.
    destruct (String.eqb (judgment r) J_SAFE) eqn:E1; [tauto|].
    destruct (String.eqb (judgment r) J_DANGER) eqn:E2; [tauto|].
    simpl in Hk. right; left. split; assumption.
  - apply in_filter_iff. split; [assumption|].
    rewrite H0. reflexivity.
  - rewrite in_filter_iff, H0. intros [_ Hf]. discriminate.
  - rewrite in_filter_iff, H0. intros [_ Hf]. discriminate.
  - apply (columns_count rs).
Qed.

Example grouped_example :
  let w := mkAnalysisResult "w" J_WARNING "" in
  let q := mkAnalysisResult "q" J_UNKNOWN "" in
  let s := mkAnalysisResult "s" J_SAFE "" in
  let x := mkAnalysisResult "x" J_DANGER "" in
  groupedResults [w; s; x; q] = mkGrouped [s] [w; q] [x].
Proof. reflexivity. Qed.

(** *** The diff alert *)

(** C10: the new-leak alert is rendered only when the stored diff response
    has [has_previous] true and a [diff] whose [has_changes] is true; it is
    not shown for a first analysis without baseline, nor for a re-analysis
    whose diff reports no change. *)
Theorem diff_alert_only_on_changes (sectionShown : bool)
    (diffData : option DiffResponse) :
  (diffAlertRendered sectionShown diffData = true <->
     sectionShown = true
     /\ exists d b, diffData = Some d /\ has_previous d = true
                    /\ diff d = Some b /\ has_changes b = true)
  /\ (forall d, diffData = Some d -> has_previous d = false ->
                diffAlertRendered sectionShown diffData = false)
  /\ (forall d b, diffData = Some d -> diff d = Some b -> has_changes b = false ->
                  diffAlertRendered sectionShown diffData = false).
Proof.
  unfold diffAlertRendered. repeat split.
  - apply andb_true_iff in H. tauto.
  - apply andb_true_iff in H as [_ H]. unfold diffAlertShown in H.
    destruct diffData as [d|]; [|discriminate].
    destruct (has_previous d) eqn:Hp; [|discriminate].
    destruct (diff d) as [b|] eqn:Hd; [|discriminate].
    exists d, b. auto.
  - intros (-> & d & b & -> & Hp & Hd & Hc). unfold diffAlertShown.
    rewrite Hp, Hd. exact Hc.
  - intros d -> Hp. unfold diffAlertShown. rewrite Hp. apply andb_false_r.
  - intros d b -> Hd Hc. unfold diffAlertShown. rewrite Hd, Hc.
    destruct (has_previous d); apply andb_false_r.
Qed.

Lemma diff_alert_hidden_after_reset sectionShown st :
  diffAlertRendered sectionShown (diffStep st Reset) = false.
Proof. apply andb_false_r. Qed.

Example diff_alert_first_analysis :
  diffAlertRendered true (Some (mkDiffResponse true false (Some "first") None)) = false.
Proof. reflexivity. Qed.

Example diff_alert_shown :
  diffAlertRendered true
    (Some (mkDiffResponse true true None
             (Some (mkDiffBody [mkAnalysisResult "u" J_DANGER ""] [] [] true 1 0 0))))
  = true.
Proof. reflexivity. Qed.

End FrontendFacts.

(** ** Hash Engine and the SerpAPI-style client *)

Module HashFacts.
Import HashEngine Provider.

Lemma distance_self (h : Hash) : distance h h = 0%nat.
Proof. unfold distance. rewrite N.lxor_nilpotent. reflexivity. Qed.

Lemma distance_sym (a b : Hash) : distance a b = distance b a.
Proof. unfold distance. rewrite N.lxor_comm. reflexivity. Qed.

Lemma is_near_exact_iff (h : HashDistances) :
  is_near_exact h = true <->
  (phash_dist h <= 2 /\ dhash_dist h <= 3 /\ ahash_dist h <= 3
   /\ max_distance h <= 3)%nat.
Proof.
  unfold is_near_exact. simpl.
  rewrite !andb_true_iff, !Nat.leb_le. tauto.
Qed.

(** C1: two fingerprints are near-duplicates exactly when the pHash
    distance is at most 2, the dHash distance at most 3, the aHash distance
    at most 3, and the greatest of the three at most 3. *)
Theorem isNearDuplicate_iff (fpA fpB : ImageFingerprint) :
  let p := distance (pHash fpA) (pHash fpB) in
  let d := distance (dHash fpA) (dHash fpB) in
  let a := distance (aHash fpA) (aHash fpB) in
  isNearDuplicate fpA fpB = true <->
  (p <= 2 /\ d <= 3 /\ a <= 3 /\ Nat.max p (Nat.max d a) <= 3)%nat.
Proof.
  intros p d a. unfold isNearDuplicate.
  rewrite is_near_exact_iff. reflexivity.
Qed.

(** Identical images: every distance is 0 and the pair is a near-duplicate. *)
Lemma identical_images (fp : ImageFingerprint) :
  hash_distances fp fp = mkHashDistances 0 0 0 0 /\ isNearDuplicate fp fp = true.
Proof.
  unfold isNearDuplicate, hash_distances. rewrite !distance_self. split; reflexivity.
Qed.

Example distance_example : distance 0xF0%N 0xF3%N = 2%nat.
Proof. reflexivity. Qed.

(** A pHash distance of 3 is rejected although the greatest distance is
    within the overall bound. *)
Example phash_three_rejected :
  isNearDuplicate (mkFingerprint "q" 0 0 0) (mkFingerprint "t" 7 0 0) = false.
Proof. reflexivity. Qed.

Lemma accepted_within_bound query m c :
  accept_thumbnail query m = Some c ->
  (max_distance (hash_distances query (thumbnail_fp m)) <= 3)%nat.
Proof.
  unfold accept_thumbnail. intros H.
  destruct (is_near_exact _) eqn:Hn; [|discriminate].
  apply is_near_exact_iff in Hn. tauto.
Qed.



Example accept_highest :
  providerConfidence <$>
    accept_thumbnail (mkFingerprint "q" 0xFF 0x0F 0x01)
      (mkVisualMatch "https://example.com/a" "a" "t.jpg" (mkFingerprint "t" 0xFE 0x0F 0x01))
  = Some (9 # 10).
Proof. reflexivity. Qed.

Example accept_high :
  providerConfidence <$>
    accept_thumbnail (mkFingerprint "q" 0xFF 0x0F 0x01)
      (mkVisualMatch "https://example.com/a" "a" "t.jpg" (mkFingerprint "t" 0xFE 0x0C 0x01))
  = Some (7 # 10).
Proof. reflexivity. Qed.

Example discard_far :
  accept_thumbnail (mkFingerprint "q" 0xFF 0x0F 0x01)
    (mkVisualMatch "https://example.com/a" "a" "t.jpg" (mkFingerprint "t" 0xFF 0x00 0x01))
  = None.
Proof. reflexivity. Qed.

End HashFacts.

(** ** Judgment Classifier *)

Module ClassifierFacts.
Import Merger Classifier.

Section Rules.
Variable allow_list : gset string.
Variable deny_list : gset string.

Abbreviation first_match := (first_match allow_list deny_list).
Abbreviation classify_one := (classify_one allow_list deny_list).
Abbreviation classify := (classify allow_list deny_list).
Abbreviation judged := (judged allow_list deny_list).
Abbreviation on_allow_list := (on_allow_list allow_list).
Abbreviation on_deny_list := (on_deny_list deny_list).

(** The search through the table, written out as the cascade it is. *)
Lemma first_match_cascade m :
  first_match m =
  if on_allow_list m then mkRule on_allow_list safe "verified publisher domain"
  else if confirmed_across_engines m then
    mkRule confirmed_across_engines dangerous
      "confirmed redistribution across multiple engines"
  else if on_deny_list m then
    mkRule on_deny_list dangerous "listed distribution domain"
  else if partial_match m then
    mkRule partial_match warning "partial match, manual review recommended"
  else default_rule.
Proof.
  unfold Classifier.first_match, rule_table. simpl.
  destruct (on_allow_list m); [reflexivity|].
  destruct (confirmed_across_engines m); [reflexivity|].
  destruct (on_deny_list m); [reflexivity|].
  destruct (partial_match m); reflexivity.
Qed.

Lemma classify_one_judged m : judged m (judgment (classify_one m)).
Proof.
  unfold Classifier.classify_one. simpl. rewrite first_match_cascade.
  destruct (on_allow_list m) eqn:H1; [by constructor|].
  destruct (confirmed_across_engines m) eqn:H2; [by constructor|].
  destruct (on_deny_list m) eqn:H3; [by constructor|].
  destruct (partial_match m) eqn:H4; by constructor.
Qed.

Lemma judged_functional m j1 j2 : judged m j1 -> judged m j2 -> j1 = j2.
Proof.
  intros H1 H2. destruct H1; inversion H2; subst; congruence.
Qed.

Lemma Qle_bool_proper a x y : x == y -> Qle_bool a x = Qle_bool a y.
Proof.
  intros E. destruct (Qle_bool a x) eqn:Hx, (Qle_bool a y) eqn:Hy; try reflexivity.
  - apply Qle_bool_iff in Hx. rewrite E in Hx. apply Qle_bool_iff in Hx. congruence.
  - apply Qle_bool_iff in Hy. rewrite <- E in Hy. apply Qle_bool_iff in Hy. congruence.
Qed.

(** The verdict reads only the domain, the cross-validation flag and the
    value of the confidence. *)
Lemma classify_one_extensional m m' :
  domain m = domain m' -> crossValidated m = crossValidated m' ->
  combinedConfidence m == combinedConfidence m' ->
  judgment (classify_one m) = judgment (classify_one m')
  /\ reason (classify_one m) = reason (classify_one m').
Proof.
  intros Hd Hc Hq. unfold Classifier.classify_one. simpl.
  rewrite !first_match_cascade.
  unfold Classifier.on_allow_list, Classifier.on_deny_list,
    confirmed_across_engines, partial_match.
  rewrite Hd, Hc, (Qle_bool_proper HIGH_CONFIDENCE _ _ Hq),
    (Qle_bool_proper LOW_CONFIDENCE _ _ Hq).
  split; reflexivity.
Qed.

(** C3: [classify] is total and deterministic: every merged result gets
    exactly one judgment among safe, dangerous, warning and unknown, the
    one of the first matching rule of the table read top-down; results
    that agree on what the rules read get the same judgment. *)
Theorem classify_total_deterministic (ms : list MergedResult) :
  length (classify ms) = length ms
  /\ (forall i m, ms !! i = Some m ->
        exists c, classify ms !! i = Some c /\ merged c = m
                  /\ judged m (judgment c)
                  /\ (forall j, judged m j -> j = judgment c))
  /\ (forall i m m', ms !! i = Some m ->
        domain m = domain m' -> crossValidated m = crossValidated m' ->
        combinedConfidence m == combinedConfidence m' ->
        judgment <$> classify ms !! i = Some (judgment (classify_one m'))).
Proof.
  unfold Classifier.classify. split; [apply length_fmap|]. split.
  - intros i m Hi. exists (classify_one m).
    rewrite list_lookup_fmap, Hi. split; [reflexivity|].
    split; [reflexivity|]. split; [apply classify_one_judged|].
    intros j Hj. apply (judged_functional m); [assumption|apply classify_one_judged].
  - intros i m m' Hi Hd Hc Hq.
    rewrite list_lookup_fmap, Hi. simpl. f_equal.
    apply classify_one_extensional; assumption.
Qed.

End Rules.

Example classify_rows :
  judgment <$> Classifier.classify {["pub.example"]} {["leak.example"]}
    [ sample "pub.example" 1 true; sample "a.example" (8 # 10) true;
      sample "leak.example" (1 # 10) false; sample "a.example" (8 # 10) false;
      sample "a.example" (5 # 10) true; sample "a.example" (3 # 10) false ]
  = [ safe; dangerous; dangerous; unknown; warning; unknown ].
Proof. vm_compute. reflexivity. Qed.

End ClassifierFacts.

(** ** History Diff Engine *)

Module DiffFacts.
Import Merger Classifier HistoryDiff.

(** C4: against an absent previous snapshot the diff reports no change,
    empty new, disappeared and changed sets and the no-baseline flag,
    whatever the current snapshot holds. *)
Theorem diff_absent_previous (S : AnalysisSnapshot) :
  let d := diff S None in
  hasChanges d = false
  /\ newResults d = [] /\ disappearedResults d = [] /\ changedResults d = []
  /\ hasBaseline d = false.
Proof. simpl. repeat split. Qed.

Lemma diff_with_previous_has_baseline S P : hasBaseline (diff S (Some P)) = true.
Proof. reflexivity. Qed.

Lemma not_all_nil {A B C} (a : list A) (b : list B) (c : list C) :
  negb (is_nil a && is_nil b && is_nil c) = true <-> a <> [] \/ b <> [] \/ c <> [].
Proof.
  destruct a, b, c; simpl; split; intros H; try reflexivity; try discriminate;
    try (intuition congruence).
Qed.

Lemma hasChanges_iff S P :
  hasChanges (diff S (Some P)) = true <->
  newResults (diff S (Some P)) <> []
  \/ disappearedResults (diff S (Some P)) <> []
  \/ changedResults (diff S (Some P)) <> [].
Proof. simpl. apply not_all_nil. Qed.

(** Scenario: T1 holds X judged dangerous; T2 holds X judged safe and Y
    judged dangerous. *)
Example diff_scenario :
  let X j := mkClassified (sample "x.example" (9 # 10) true) j "" in
  let Y := mkClassified (sample "y.example" (9 # 10) true) dangerous "" in
  let T1 := mkSnapshot "h" 1 [X dangerous] [] in
  let T2 := mkSnapshot "h" 2 [X safe; Y] [] in
  diff T2 (Some T1) = mkDiffResult [Y] [] [(X dangerous, X safe)] true true
  /\ diff T2 None = mkDiffResult [] [] [] false false.
Proof. split; reflexivity. Qed.

End DiffFacts.

(** ** Search Orchestrator *)

Module OrchestratorFacts.
Import Provider Orchestrator.

Section SearchAll.
Variable failure_threshold : nat.
Variable cooldown : N.

Abbreviation invoke := (invoke cooldown).
Abbreviation searchAll := (searchAll failure_threshold cooldown).
Abbreviation isAvailable := (isAvailable cooldown).
Abbreviation fruitless := (fruitless cooldown).

Lemma invoke_fruitless store now img t dl p :
  fruitless store now img t dl p ->
  exists s, invoke store now img t dl p = ([], s) /\ is_success s = false.
Proof.
  unfold Orchestrator.fruitless, Orchestrator.invoke. intros H.
  destruct (Orchestrator.isAvailable cooldown store now p) eqn:Ha.
  - destruct (N.ltb_spec dl (elapsed (search p img t))) as [Hlt|Hge].
    + eexists; split; reflexivity.
    + destruct H as [H|[H|[e He]]]; [discriminate|lia|].
      rewrite He. eexists; split; reflexivity.
  - eexists; split; reflexivity.
Qed.

Lemma searchAll_invalid providers store now img t dl :
  searchAll providers store now img t dl = inl InvalidImage <->
  valid_image img = false.
Proof.
  unfold Orchestrator.searchAll. destruct (valid_image img); split; intros H;
    try discriminate; reflexivity.
Qed.

(** C5: with a valid image, when every provider fails or is unavailable,
    [searchAll] returns normally: an empty candidate list and statistics
    that carry the total-failure indicator and one entry per provider. *)
Theorem searchAll_total_failure providers store now img t dl :
  valid_image img = true ->
  (forall p, In p providers -> fruitless store now img t dl p) ->
  exists stats store',
    searchAll providers store now img t dl = inr ([], stats, store')
    /\ totalFailure stats = true
    /\ fst <$> perProvider stats = name <$> providers
    /\ Forall (fun ns => is_success (snd ns) = false) (perProvider stats).
Proof.
  intros Hv Hall. unfold Orchestrator.searchAll. rewrite Hv.
  eexists _, _. simpl.
  assert (forall ps, (forall p, In p ps -> fruitless store now img t dl p) ->
            let runs := (fun p => (name p, invoke store now img t dl p)) <$> ps in
            runs ≫= (fun r => fst (snd r)) = []
            /\ Forall (fun ns => is_success (snd ns) = false)
                 ((fun r => (fst r, snd (snd r))) <$> runs)) as Hruns.
  { induction ps as [|p ps IH]; intros Hps; simpl.
    - split; [reflexivity|constructor].
    - destruct (invoke_fruitless store now img t dl p) as (s & Hs & Hf);
        [apply Hps; left; reflexivity|].
      destruct IH as [IH1 IH2]; [intros q Hq; apply Hps; right; exact Hq|].
      rewrite Hs. simpl. split; [exact IH1|].
      constructor; [exact Hf|exact IH2]. }
  destruct (Hruns providers Hall) as [Hc Hs]. simpl in Hc, Hs.
  split; [rewrite Hc; reflexivity|]. split.
  - apply forallb_forall. intros ns Hin.
    rewrite Forall_forall in Hs. rewrite (Hs ns); [reflexivity|].
    apply list_elem_of_In. exact Hin.
  - split; [|exact Hs].
    clear Hall Hc Hs Hruns.
    induction providers as [|p ps IH]; simpl; [reflexivity|].
    f_equal. exact IH.
Qed.

End SearchAll.

Example searchAll_sample :
  match Orchestrator.searchAll 3 60 sample_providers sample_store 100 sample_image 15 30 with
  | inr (cs, stats, _) => Some (cs, perProvider stats, totalFailure stats)
  | inl _ => None
  end
  = Some ([], [ ("alpha", Errored RateLimited); ("beta", Unavailable);
                ("gamma", Unavailable); ("delta", Errored NetworkTimeout) ], true).
Proof. vm_compute. reflexivity. Qed.

Example searchAll_small_image :
  Orchestrator.searchAll 3 60 sample_providers sample_store 100 (mkImage 40 480 []) 15 30
  = inl InvalidImage.
Proof. reflexivity. Qed.

Lemma searchAll_total_failure_witness :
  exists stats store',
    Orchestrator.searchAll 3 60 sample_providers sample_store 100 sample_image 15 30
    = inr ([], stats, store')
    /\ totalFailure stats = true
    /\ fst <$> perProvider stats = name <$> sample_providers
    /\ Forall (fun ns => is_success (snd ns) = false) (perProvider stats).
Proof.
  apply (searchAll_total_failure 3 60 sample_providers sample_store 100 sample_image 15 30).
  - reflexivity.
  - intros p Hp. simpl in Hp.
    destruct Hp as [<-|[<-|[<-|[<-|[]]]]].
    + right; right. exists RateLimited. reflexivity.
    + left. reflexivity.
    + left. vm_compute. reflexivity.
    + right; left. reflexivity.
Defined.

End OrchestratorFacts.

(** ** Result Merger *)

Module MergerFacts.
Import HashEngine Provider Merger.
Local Open Scope Q_scope.

(** *** The order of the output *)

Lemma precedes_total a b : precedes a b = false -> precedes b a = true.
Proof.
  unfold precedes. rewrite <- (Qcompare_antisym (combinedConfidence b)).
  destruct (Qcompare (combinedConfidence b) (combinedConfidence a)); simpl;
    intros H; try discriminate; try reflexivity.
  destruct (String.leb_total (url a) (url b)) as [E|E]; congruence.
Qed.

Lemma insert_sorted_In x l y : In y (insert_sorted x l) <-> y = x \/ In y l.
Proof.
  induction l as [|z l IH]; simpl.
  - intuition.
  - destruct (precedes x z); simpl; [intuition|].
    rewrite IH. intuition.
Qed.

Lemma sort_results_In l y : In y (sort_results l) <-> In y l.
Proof.
  induction l as [|x l IH]; simpl; [tauto|].
  rewrite insert_sorted_In, IH. intuition.
Qed.

Lemma insert_sorted_Permutation x l : insert_sorted x l ≡ₚ x :: l.
Proof.
  induction l as [|z l IH]; simpl; [reflexivity|].
  destruct (precedes x z); [reflexivity|].
  rewrite IH. apply Permutation_swap.
Qed.

Lemma sort_results_Permutation l : sort_results l ≡ₚ l.
Proof.
  induction l as [|x l IH]; simpl; [reflexivity|].
  rewrite insert_sorted_Permutation, IH. reflexivity.
Qed.

Lemma insert_sorted_Sorted x l : Sorted before l -> Sorted before (insert_sorted x l).
Proof.
  induction l as [|z l IH]; intros Hs; simpl.
  - repeat constructor.
  - destruct (precedes x z) eqn:E.
    + constructor; [exact Hs|]. constructor. exact E.
    + apply Sorted_inv in Hs as [Hs Hhd].
      constructor; [apply IH; exact Hs|].
      destruct l as [|w l]; simpl.
      * constructor. apply precedes_total. exact E.
      * destruct (precedes x w).
        -- constructor. apply precedes_total. exact E.
        -- constructor. apply HdRel_inv in Hhd. exact Hhd.
Qed.

(** The output is in descending confidence, ties in ascending url. *)
Lemma sort_results_Sorted l : Sorted before (sort_results l).
Proof.
  induction l as [|x l IH]; simpl; [constructor|].
  apply insert_sorted_Sorted. exact IH.
Qed.

(** *** Confidence of a group *)

Lemma Qmax_cases x y : (Qmax x y = x /\ y <= x) \/ (Qmax x y = y /\ x <= y).
Proof.
  unfold Qmax, GenericMinMax.gmax.
  destruct (Qcompare_spec x y) as [E|E|E].
  - left. split; [reflexivity|]. rewrite E. apply Qle_refl.
  - right. split; [reflexivity|]. apply Qlt_le_weak. exact E.
  - left. split; [reflexivity|]. apply Qlt_le_weak. exact E.
Qed.

Lemma fold_Qmax_spec cs : forall m,
  let best := fold_left (fun m c' => Qmax m (providerConfidence c')) cs m in
  m <= best
  /\ (forall c, In c cs -> providerConfidence c <= best)
  /\ (best = m \/ exists c, In c cs /\ providerConfidence c = best).
Proof.
  induction cs as [|c cs IH]; intros m; simpl.
  - split; [apply Qle_refl|]. split; [tauto|]. left; reflexivity.
  - destruct (IH (Qmax m (providerConfidence c))) as (H1 & H2 & H3).
    destruct (Qmax_cases m (providerConfidence c)) as [[E L]|[E L]]; rewrite E in *.
    + split; [exact H1|]. split.
      * intros c' [<-|Hin]; [|apply H2; exact Hin].
        eapply Qle_trans; [exact L|exact H1].
      * destruct H3 as [H3|(c' & Hin & Hc')]; [left; exact H3|].
        right. exists c'. split; [right; exact Hin|exact Hc'].
    + split; [eapply Qle_trans; [exact L|exact H1]|]. split.
      * intros c' [<-|Hin]; [exact H1|apply H2; exact Hin].
      * right. destruct H3 as [H3|(c' & Hin & Hc')].
        -- exists c. split; [left; reflexivity|symmetry; exact H3].
        -- exists c'. split; [right; exact Hin|exact Hc'].
Qed.

Lemma max_confidence_is_max c cs : is_max (max_confidence c cs) (c :: cs).
Proof.
  unfold max_confidence, is_max.
  destruct (fold_Qmax_spec cs (providerConfidence c)) as (H1 & H2 & H3).
  split.
  - destruct H3 as [H3|(c' & Hin & Hc')].
    + exists c. split; [left; reflexivity|symmetry; exact H3].
    + exists c'. split; [right; exact Hin|exact Hc'].
  - intros c' [<-|Hin]; [exact H1|apply H2; exact Hin].
Qed.

(** *** Keys *)

Lemma dedup_In k l : In k (dedup l) <-> In k l.
Proof.
  induction l as [|x l IH]; simpl; [tauto|].
  rewrite filter_In, IH, negb_true_iff, String.eqb_neq.
  destruct (String.eqb_spec k x) as [->|Hne]; intuition congruence.
Qed.

Lemma dedup_NoDup l : NoDup (dedup l).
Proof.
  induction l as [|x l IH]; simpl; constructor.
  - rewrite list_elem_of_In, filter_In, String.eqb_refl. simpl. intros [_ H]. discriminate.
  - apply NoDup_ListNoDup, List.NoDup_filter, NoDup_ListNoDup. exact IH.
Qed.

(** *** Structure of the output *)

Section Merge.
Variable normalize_url : string -> string.
Variable domain_of : string -> string.

Abbreviation key := (key normalize_url).
Abbreviation group := (group normalize_url).
Abbreviation merge_group := (merge_group domain_of).
Abbreviation merge := (merge normalize_url domain_of).

Lemma merge_In cs r :
  In r (merge cs) <->
  exists k, In k (dedup (key <$> cs)) /\ merge_group k (group k cs) = Some r.
Proof.
  unfold Merger.merge. rewrite sort_results_In, <- list_elem_of_In, list_elem_of_omap.
  split; intros (k & Hk & Hr); exists k; split;
    try exact Hr; apply list_elem_of_In; exact Hk.
Qed.

Lemma merge_group_url k g r : merge_group k g = Some r -> url r = k.
Proof.
  destruct g as [|c cs]; simpl; intros H; [discriminate|].
  inversion H. reflexivity.
Qed.

Lemma providers_nonempty (g : list RawCandidate) :
  g <> [] -> (1 <= size (list_to_set (providerName <$> g) : gset string))%nat.
Proof.
  destruct g as [|c cs]; [congruence|]. intros _.
  assert (size (list_to_set (providerName <$> c :: cs) : gset string) <> 0%nat); [|lia].
  apply size_non_empty_iff. csimpl. set_solver.
Qed.

(** What [merge] emits for the candidates that share the url of [r]. *)
Lemma merge_result_spec cs r :
  In r (merge cs) ->
  let g := group (url r) cs in
  let providers : gset string := list_to_set (providerName <$> g) in
  g <> []
  /\ contributingProviders r = providers
  /\ domain r = domain_of (url r)
  /\ crossValidated r = bool_decide (1 < size providers)%nat
  /\ exists best, is_max best g
       /\ combinedConfidence r =
          if crossValidated r
          then Qmin CONFIDENCE_CAP (best + CROSS_VALIDATION_BONUS) else best.
Proof.
  intros Hin. apply merge_In in Hin as (k & _ & Hr).
  pose proof (merge_group_url _ _ _ Hr) as Hk. cbv zeta. rewrite Hk.
  destruct (group k cs) as [|c g'] eqn:Hg; [discriminate|].
  simpl in Hr. inversion Hr; subst r; clear Hr. simpl.
  split; [discriminate|]. split; [reflexivity|]. split; [reflexivity|].
  split; [reflexivity|].
  exists (max_confidence c g'). split; [apply max_confidence_is_max|reflexivity].
Qed.

(** C2: in every merged result the combined confidence is the greatest
    provider confidence among the contributing candidates when exactly
    one provider contributed, and the smaller of 1.0 and that maximum
    plus 0.1, with the cross-validation flag set, when more than one
    provider contributed. *)
Theorem merge_combined_confidence cs r :
  In r (merge cs) ->
  exists best,
    is_max best (group (url r) cs)
    /\ contributingProviders r = list_to_set (providerName <$> group (url r) cs)
    /\ (1 <= size (contributingProviders r))%nat
    /\ (size (contributingProviders r) = 1%nat ->
        combinedConfidence r = best /\ crossValidated r = false)
    /\ ((1 < size (contributingProviders r))%nat ->
        combinedConfidence r = Qmin 1 (best + (1 # 10))
        /\ crossValidated r = true).
Proof.
  intros Hin.
  destruct (merge_result_spec cs r Hin) as (Hne & Hp & _ & Hcv & best & Hmax & Hc).
  exists best. split; [exact Hmax|]. split; [exact Hp|].
  rewrite <- Hp in Hcv.
  split; [rewrite Hp; apply providers_nonempty; exact Hne|].
  split; intros Hsz.
  - assert (crossValidated r = false) as Hf.
    { rewrite Hcv. apply bool_decide_eq_false. lia. }
    rewrite Hf in Hc. split; [exact Hc|exact Hf].
  - assert (crossValidated r = true) as Ht.
    { rewrite Hcv. apply bool_decide_eq_true. exact Hsz. }
    rewrite Ht in Hc. split; [exact Hc|exact Ht].
Qed.

(** *** Uniqueness of urls *)

Lemma omap_urls_NoDup cs ks :
  NoDup ks -> NoDup (url <$> omap (fun k => merge_group k (group k cs)) ks).
Proof.
  induction 1 as [|k ks Hk Hks IH]; csimpl; [constructor|].
  destruct (merge_group k (group k cs)) as [r|] eqn:Hr; csimpl; [|exact IH].
  constructor; [|exact IH].
  apply merge_group_url in Hr. rewrite Hr.
  intros Hin. apply Hk.
  apply list_elem_of_fmap in Hin as (r' & -> & Hr').
  apply list_elem_of_omap in Hr' as (k' & Hk' & Hr').
  apply merge_group_url in Hr'. rewrite Hr'. exact Hk'.
Qed.

(** The url is a key of the output: no two results share it. *)
Lemma merge_urls_NoDup cs : NoDup (url <$> merge cs).
Proof.
  unfold Merger.merge. rewrite sort_results_Permutation.
  apply omap_urls_NoDup, dedup_NoDup.
Qed.

End Merge.

(** *** The scenarios *)

Example merge_alpha_beta : merge same_url same_url alpha_beta = [pub_merged].
Proof. vm_compute. reflexivity. Qed.

Example merge_two_engines :
  (fun r => (url r, combinedConfidence r, crossValidated r))
    <$> merge same_url same_url two_engines
  = [ ("http://b.example/y", 85 # 100, false); ("http://a.example/x", 80 # 100, true) ].
Proof. vm_compute. reflexivity. Qed.

Lemma merge_combined_confidence_witness :
  exists best,
    is_max best (group same_url (url pub_merged) alpha_beta)
    /\ contributingProviders pub_merged
       = list_to_set (providerName <$> group same_url (url pub_merged) alpha_beta)
    /\ (1 <= size (contributingProviders pub_merged))%nat
    /\ (size (contributingProviders pub_merged) = 1%nat ->
        combinedConfidence pub_merged = best /\ crossValidated pub_merged = false)
    /\ ((1 < size (contributingProviders pub_merged))%nat ->
        combinedConfidence pub_merged = Qmin 1 (best + (1 # 10))
        /\ crossValidated pub_merged = true).
Proof.
  apply (merge_combined_confidence same_url same_url alpha_beta pub_merged).
  vm_compute. left. reflexivity.
Defined.

(** Two engines report one page with confidences 0.6 and 0.7 and the
    merged confidence is 0.8.  Whatever candidates are derived from the
    output, if each carries the url and the combined confidence of the
    result it comes from, merging them does not give the output back: a
    cross-validated result would get the bonus a second time. *)
Lemma no_confidence_carrying_readback (conv : MergedResult -> list RawCandidate) :
  (forall r c, In c (conv r) ->
     Provider.url c = url r /\ providerConfidence c = combinedConfidence r) ->
  merge same_url same_url (merge same_url same_url two_engines ≫= conv)
  <> merge same_url same_url two_engines.
Proof.
  intros Hconv Heq.
  assert (merge same_url same_url two_engines = two_engines_merged) as Hout
    by (vm_compute; reflexivity).
  rewrite Hout in Heq.
  pose (x := mkMergedResult "http://a.example/x" "http://a.example/x" "X" (80 # 100)
               (list_to_set ["Alpha"; "Beta"]) None true).
  assert (In x (merge same_url same_url (two_engines_merged ≫= conv))) as Hx
    by (rewrite Heq; right; left; reflexivity).
  destruct (merge_result_spec _ _ _ _ Hx)
    as (_ & _ & _ & _ & best & [(c & Hc & Hbest) _] & Hconf).
  apply filter_In in Hc as [Hc Hkey]. apply String.eqb_eq in Hkey.
  apply list_elem_of_In, list_elem_of_bind in Hc as (r & Hc & Hr).
  apply list_elem_of_In in Hc. destruct (Hconv r c Hc) as [Hu Hq].
  unfold key, same_url in Hkey. rewrite Hu in Hkey.
  apply list_elem_of_In in Hr. destruct Hr as [<-|[<-|[]]].
  - discriminate Hkey.
  - rewrite <- Hbest, Hq in Hconf. vm_compute in Hconf. discriminate Hconf.
Qed.

(** Candidates that carry the greatest reported confidence instead do
    give the output back. *)
Example reported_confidence_reproduces :
  merge same_url same_url two_engines_reported = merge same_url same_url two_engines.
Proof. vm_compute. reflexivity. Qed.

End MergerFacts.


(** ** Front end: choosing and uploading files *)

Module BatchAppFacts.
Import Frontend BatchApp.

(** *** The drop zone *)

Lemma filterValid_kept files s : fst (filterValid files s) = List.filter isValid files.
Proof.
  revert s. induction files as [|file rest IH]; intros s; simpl; [reflexivity|].
  destruct (isValid file).
  - specialize (IH s). destruct (filterValid rest s) as [kept s']. simpl in *.
    rewrite IH. reflexivity.
  - apply IH.
Qed.

(** The toasts raised while filtering touch nothing but the toast. *)
Lemma filterValid_state files s :
  let s' := snd (filterValid files s) in
  selectedFile s' = selectedFile s /\ selectedFiles s' = selectedFiles s
  /\ isBatchMode s' = isBatchMode s /\ error s' = error s
  /\ loading s' = loading s
  /\ (Forall (fun f => isValid f = true) files -> s' = s).
Proof.
  revert s. induction files as [|file rest IH]; intros s; simpl.
  - repeat split.
  - destruct (isValid file) eqn:Hv.
    + specialize (IH s). destruct (filterValid rest s) as [kept s']. simpl in *.
      destruct IH as (H1 & H2 & H3 & H4 & H5 & H6).
      repeat split; try assumption.
      intros Hall. apply H6. inversion Hall; assumption.
    + destruct (IH (showErrorToast
                      (file_name file ++ " は画像またはPDFファイルではありません") s))
        as (H1 & H2 & H3 & H4 & H5 & _).
      repeat split; try assumption.
      intros Hall. inversion Hall; congruence.
Qed.

Lemma handleFileDrop_cases files s :
  let valid := List.filter isValid files in
  let s1 := snd (filterValid files s) in
  handleFileDrop files s =
  match files with
  | [] => s
  | _ =>
      if (MAX_FILES <? length files)%nat then
        setError (Some "ファイル数は最大10個までです") s
      else
        match valid with
        | [] => setError (Some "有効な画像またはPDFファイルがありません") s1
        | [f] =>
            setError None
              (setIsBatchMode false (setSelectedFiles [] (setSelectedFile (Some f) s1)))
        | _ =>
            setError None
              (setIsBatchMode true (setSelectedFile None (setSelectedFiles valid s1)))
        end
  end.
Proof.
  cbv zeta. unfold handleFileDrop. rewrite <- (filterValid_kept files s).
  destruct files as [|f files]; [reflexivity|].
  destruct (MAX_FILES <? length (f :: files))%nat; [reflexivity|].
  destruct (filterValid (f :: files) s) as [kept s']. reflexivity.
Qed.

(** X1: a drop that is empty, has more than ten files, or has no image or
    PDF among its files leaves the current selection as it was; the last two
    are reported through the error message. *)
Theorem handleFileDrop_rejected files s :
  files = [] \/ (10 < length files)%nat \/ List.filter isValid files = [] ->
  let s' := handleFileDrop files s in
  selectedFile s' = selectedFile s
  /\ selectedFiles s' = selectedFiles s
  /\ isBatchMode s' = isBatchMode s
  /\ (files = [] -> s' = s)
  /\ ((10 < length files)%nat ->
      s' = setError (Some "ファイル数は最大10個までです") s)
  /\ (files <> [] -> (length files <= 10)%nat ->
      error s' = Some "有効な画像またはPDFファイルがありません").
Proof.
  intros Hrej. cbv zeta. rewrite handleFileDrop_cases. cbv zeta.
  destruct (filterValid_state files s) as (H1 & H2 & H3 & _).
  destruct files as [|f files].
  - repeat split; try reflexivity; intros; try congruence; simpl in *; lia.
  - unfold MAX_FILES.
    destruct (Nat.ltb_spec 10 (length (f :: files))) as [Hlt|Hge].
    + repeat split; try reflexivity; intros; try congruence; lia.
    + destruct Hrej as [Hrej|[Hrej|Hrej]]; [discriminate|lia|].
      rewrite Hrej. simpl.
      repeat split; try assumption; intros; try reflexivity; try congruence.
      exfalso. simpl in Hge. lia.
Qed.

Lemma handleFileDrop_rejected_witness :
  let files := replicate 11 (mkFile "a.png" "image/png" 1) in
  let s' := handleFileDrop files initialState in
  selectedFile s' = None /\ selectedFiles s' = [] /\ isBatchMode s' = false
  /\ error s' = Some "ファイル数は最大10個までです".
Proof.
  cbv zeta.
  destruct (handleFileDrop_rejected (replicate 11 (mkFile "a.png" "image/png" 1))
              initialState) as (H1 & H2 & H3 & _ & H5 & _).
  - right; left. simpl. lia.
  - split; [exact H1|]. split; [exact H2|]. split; [exact H3|].
    rewrite H5; [reflexivity|simpl; lia].
Defined.

(** X2: a drop of one to ten files with at least one image or PDF replaces
    the selection by exactly those files, in the order they were dropped,
    and clears the error; one such file selects it alone, several switch to
    batch mode. *)
Theorem handleFileDrop_accepted files s :
  files <> [] -> (length files <= 10)%nat -> List.filter isValid files <> [] ->
  let s' := handleFileDrop files s in
  selection s' = List.filter isValid files
  /\ Forall (fun f => isValid f = true) (selection s')
  /\ (1 <= length (selection s') <= 10)%nat
  /\ error s' = None
  /\ isBatchMode s' = (1 <? length (List.filter isValid files))%nat.
Proof.
  intros Hne Hlen Hvalid. cbv zeta. rewrite handleFileDrop_cases. cbv zeta.
  assert (length (List.filter isValid files) <= length files)%nat as Hfl
    by apply List.filter_length_le.
  assert (Forall (fun f => isValid f = true) (List.filter isValid files)) as Hall.
  { apply Forall_forall. intros f Hf. apply list_elem_of_In, filter_In in Hf. tauto. }
  destruct files as [|f0 files]; [congruence|].
  unfold MAX_FILES.
  destruct (Nat.ltb_spec 10 (length (f0 :: files))) as [Hlt|_]; [lia|].
  destruct (List.filter isValid (f0 :: files)) as [|f [|g rest]] eqn:Hf;
    [congruence| |]; unfold selection; simpl in *;
    (split; [reflexivity|]); (split; [exact Hall|]);
    (split; [lia|]); split; reflexivity.
Qed.

Lemma handleFileDrop_accepted_witness :
  let files := [ mkFile "a.png" "image/png" 10; mkFile "notes.txt" "text/plain" 3;
                 mkFile "b.pdf" "application/pdf" 20 ] in
  let s' := handleFileDrop files initialState in
  selection s' = [ mkFile "a.png" "image/png" 10; mkFile "b.pdf" "application/pdf" 20 ]
  /\ error s' = None /\ isBatchMode s' = true.
Proof.
  cbv zeta.
  destruct (handleFileDrop_accepted
              [ mkFile "a.png" "image/png" 10; mkFile "notes.txt" "text/plain" 3;
                mkFile "b.pdf" "application/pdf" 20 ] initialState)
    as (H1 & _ & _ & H4 & H5).
  - discriminate.
  - simpl. lia.
  - vm_compute. discriminate.
  - split; [exact H1|]. split; [exact H4|exact H5].
Defined.

(** *** The selection *)

Lemma filter_indexed_delete {A} (index : nat) (l : list A) : forall k,
  filter_indexed (fun _ i => negb (i =? index)%nat) k l
  = if (index <? k)%nat then l else delete (index - k)%nat l.
Proof.
  induction l as [|x l IH]; intros k; simpl.
  - destruct (index <? k)%nat; reflexivity.
  - rewrite IH.
    destruct (Nat.eqb_spec k index) as [->|Hne]; simpl.
    + rewrite Nat.sub_diag.
      destruct (Nat.ltb_spec index index) as [?|_]; [lia|].
      destruct (Nat.ltb_spec index (S index)) as [_|?]; [|lia]. reflexivity.
    + destruct (Nat.ltb_spec index k) as [Hlt|Hge].
      * destruct (Nat.ltb_spec index (S k)) as [_|?]; [|lia]. reflexivity.
      * destruct (Nat.ltb_spec index (S k)) as [?|_]; [lia|].
        replace (index - k)%nat with (S (index - S k)) by lia. reflexivity.
Qed.

Lemma delete_past_end {A} (l : list A) i : (length l <= i)%nat -> delete i l = l.
Proof.
  intros H. rewrite delete_take_drop, take_ge, drop_ge by lia. apply app_nil_r.
Qed.

(** X5: [removeFile] deletes the file at the given position and keeps the
    others in order; a position past the end removes nothing; batch mode is
    left only when no file remains, so a batch reduced to one file stays a
    batch. *)
Theorem removeFile_deletes (index : nat) (s : AppState) :
  let s' := removeFile index s in
  selectedFiles s' = delete index (selectedFiles s)
  /\ ((index < length (selectedFiles s))%nat ->
      S (length (selectedFiles s')) = length (selectedFiles s))
  /\ ((length (selectedFiles s) <= index)%nat -> selectedFiles s' = selectedFiles s)
  /\ isBatchMode s' = isBatchMode s && negb (is_empty (selectedFiles s'))
  /\ selectedFile s' = selectedFile s.
Proof.
  cbv zeta.
  assert (selectedFiles (removeFile index s) = delete index (selectedFiles s)) as Hd.
  { unfold removeFile. rewrite filter_indexed_delete. simpl.
    rewrite Nat.sub_0_r. destruct (is_empty _); reflexivity. }
  split; [exact Hd|]. rewrite Hd.
  split; [intros Hlt; rewrite length_delete; [lia|]; apply lookup_lt_is_Some; exact Hlt|].
  split; [intros Hge; apply delete_past_end; exact Hge|].
  unfold removeFile. rewrite filter_indexed_delete. simpl. rewrite Nat.sub_0_r.
  destruct (is_empty (delete index (selectedFiles s))); simpl;
    rewrite ?andb_false_r, ?andb_true_r; split; reflexivity.
Qed.

Example removeFile_keeps_batch :
  let a := mkFile "a.png" "image/png" 1 in
  let b := mkFile "b.png" "image/png" 2 in
  let s := removeFile 0 (handleFileSelect [a; b] initialState) in
  selectedFiles s = [b] /\ isBatchMode s = true /\ selectedFile s = None.
Proof. repeat split. Qed.

Lemma filter_indexed_nonempty {A} (f : A -> nat -> bool) k (l : list A) :
  filter_indexed f k l <> [] -> l <> [].
Proof. destruct l; simpl; congruence. Qed.

Lemma handleFileSelect_consistent files s :
  selection_consistent s -> selection_consistent (handleFileSelect files s).
Proof.
  intros Hs. destruct files as [|f [|g rest]]; [exact Hs| |];
    split; simpl; intros; first [reflexivity | congruence].
Qed.

Lemma handleFileDrop_consistent files s :
  selection_consistent s -> selection_consistent (handleFileDrop files s).
Proof.
  intros [Hb Hf]. rewrite handleFileDrop_cases. cbv zeta.
  destruct (filterValid_state files s) as (H1 & H2 & H3 & _).
  remember (snd (filterValid files s)) as s1 eqn:E. clear E.
  destruct files as [|f0 files]; [split; assumption|].
  destruct (MAX_FILES <? length (f0 :: files))%nat; [split; assumption|].
  destruct (List.filter isValid (f0 :: files)) as [|f [|g rest]];
    split; simpl; intros; try first [reflexivity | congruence].
  rewrite H1. apply Hf. rewrite <- H2. assumption.
Qed.

Lemma removeFile_consistent index s :
  selection_consistent s -> selection_consistent (removeFile index s).
Proof.
  intros [Hb Hf]. unfold removeFile, selection_consistent.
  destruct (filter_indexed _ 0 (selectedFiles s)) as [|x l] eqn:Hn; simpl.
  - split; [reflexivity|congruence].
  - assert (selectedFiles s <> []) as Hne
      by (apply (filter_indexed_nonempty (fun _ i => negb (i =? index)%nat) 0);
          rewrite Hn; discriminate).
    split; [|intros _; apply Hf; exact Hne].
    rewrite Hb. destruct (selectedFiles s); [congruence|reflexivity].
Qed.

Lemma selectionStep_consistent s e :
  selection_consistent s -> selection_consistent (selectionStep s e).
Proof.
  intros Hs. destruct e; simpl.
  - apply handleFileSelect_consistent; exact Hs.
  - apply handleFileDrop_consistent; exact Hs.
  - apply removeFile_consistent; exact Hs.
  - split; simpl; [reflexivity|congruence].
  - split; simpl; [reflexivity|congruence].
Qed.

(** X3: whatever files are chosen, dropped, removed or cleared, and however
    often the application is reset, batch mode is on exactly when the file
    list is non-empty, and the single file and the file list are never set
    together. *)
Theorem selection_stays_consistent (events : list SelectionEvent) (s : AppState) :
  selection_consistent s ->
  let s' := fold_left selectionStep events s in
  isBatchMode s' = negb (is_empty (selectedFiles s'))
  /\ (selectedFiles s' <> [] -> selectedFile s' = None)
  /\ (is_Some (selectedFile s') -> selectedFiles s' = [] /\ isBatchMode s' = false).
Proof.
  intros Hs. cbv zeta.
  assert (selection_consistent (fold_left selectionStep events s)) as [Hb Hf].
  { revert s Hs. induction events as [|e events IH]; intros s Hs; simpl; [exact Hs|].
    apply IH, selectionStep_consistent, Hs. }
  split; [exact Hb|]. split; [exact Hf|].
  intros [f Hsome]. rewrite Hb.
  destruct (selectedFiles (fold_left selectionStep events s)) as [|x l];
    [split; reflexivity|].
  rewrite Hf in Hsome; [discriminate|discriminate].
Qed.

Lemma selection_stays_consistent_witness :
  let a := mkFile "a.png" "image/png" 1 in
  let b := mkFile "b.pdf" "application/pdf" 2 in
  let s' := fold_left selectionStep
              [FileDrop [a; b]; RemoveFile 0; FileSelect [a]; RemoveFile 3]
              initialState in
  isBatchMode s' = negb (is_empty (selectedFiles s'))
  /\ (selectedFiles s' <> [] -> selectedFile s' = None)
  /\ (is_Some (selectedFile s') -> selectedFiles s' = [] /\ isBatchMode s' = false).
Proof.
  cbv zeta. apply selection_stays_consistent.
  split; [reflexivity|]. simpl. congruence.
Defined.

(** X4: in a consistent selection an enabled upload button always starts an
    upload: the handler it dispatches to passes its own guard, so the
    "select a file" error cannot come from a click. *)
Theorem uploadClick_passes_guard (s : AppState) :
  selection_consistent s -> uploadDisabled s = false ->
  uploadClick s = (setUploadProgress 0 (setError None (setLoading true s)), true).
Proof.
  intros [Hb Hf] Hen. unfold uploadDisabled in Hen.
  apply orb_false_iff in Hen as [Hsel _].
  unfold uploadClick, handleBatchUpload_start, handleUpload_start. rewrite Hb.
  destruct (selectedFiles s) as [|x l]; simpl in *.
  - destruct (selectedFile s); [reflexivity|].
    rewrite bool_decide_eq_false_2 in Hsel; [discriminate|].
    intros [? ?]; discriminate.
  - reflexivity.
Qed.

Lemma uploadClick_passes_guard_witness :
  let s := handleFileSelect [mkFile "a.png" "image/png" 1] initialState in
  uploadClick s = (setUploadProgress 0 (setError None (setLoading true s)), true).
Proof.
  cbv zeta. apply uploadClick_passes_guard.
  - split; [reflexivity|]. simpl. congruence.
  - reflexivity.
Defined.

(** Without the consistency the guard can fail: batch mode with an empty
    list and a single file set. *)
Example uploadClick_inconsistent :
  let s := setIsBatchMode true
             (setSelectedFile (Some (mkFile "a.png" "image/png" 1)) initialState) in
  uploadDisabled s = false
  /\ uploadClick s = (setError (Some "ファイルを選択してください") s, false).
Proof. split; reflexivity. Qed.

(** *** The simulated progress bar *)

Lemma simulatedProgress_closed (step k : Z) (n : nat) : forall m : Z,
  (0 < step)%Z -> (90 = step * k)%Z -> (0 <= m <= k)%Z ->
  simulatedProgress step n (step * m)%Z = Z.min 90 (step * (m + Z.of_nat n)).
Proof.
  induction n as [|n IH]; intros m Hstep Hk Hm.
  - simpl. rewrite Z.add_0_r. nia.
  - cbn [simulatedProgress]. unfold progressTick.
    destruct (Z.leb_spec 90 (step * m)) as [Hge|Hlt]; cbn [fst].
    + assert (m = k) as -> by nia.
      rewrite Hk at 1. rewrite (IH k); [|assumption|assumption|lia]. nia.
    + replace (step * m + step)%Z with (step * (m + 1))%Z by lia.
      rewrite (IH (m + 1)%Z); [|assumption|assumption|nia].
      f_equal. lia.
Qed.

(** X6: driven by its timer alone the progress bar shows min(90, 10 n)
    after n firings for one file and min(90, 5 n) for a batch; whatever
    value a firing finds, it leaves the bar below 100, which only the end of
    the upload sets. *)
Theorem simulatedProgress_bounded (n : nat) (prev : Z) :
  simulatedProgress SINGLE_STEP n 0 = Z.min 90 (10 * Z.of_nat n)
  /\ simulatedProgress BATCH_STEP n 0 = Z.min 90 (5 * Z.of_nat n)
  /\ (fst (progressTick SINGLE_STEP prev) < 100)%Z
  /\ (fst (progressTick BATCH_STEP prev) < 100)%Z
  /\ (snd (progressTick SINGLE_STEP prev) = true <-> (90 <= prev)%Z).
Proof.
  unfold SINGLE_STEP, BATCH_STEP. split; [|split].
  - pose proof (simulatedProgress_closed 10 9 n 0 ltac:(lia) ltac:(lia) ltac:(lia))
      as H.
    rewrite Z.mul_0_r, Z.add_0_l in H. exact H.
  - pose proof (simulatedProgress_closed 5 18 n 0 ltac:(lia) ltac:(lia) ltac:(lia))
      as H.
    rewrite Z.mul_0_r, Z.add_0_l in H. exact H.
  - unfold progressTick.
    destruct (Z.leb_spec 90 prev); simpl; repeat split; try lia; discriminate.
Qed.

(** *** Analysing one file *)

(** X7: [handleAnalyze] always ends with the loading flag cleared; the
    results are replaced and the results step entered only when both the
    search and the results request succeed; otherwise the previous results
    and diff stay and the step is left at 'analyze'.  A failed diff request
    never changes the stored diff. *)
Theorem handleAnalyze_outcome search res diff hist s u :
  uploadData s = Some u ->
  let s' := handleAnalyze search res diff hist s in
  loading s' = false
  /\ (forall r, search = Resolved true -> res = Resolved r ->
        analysisResults s' = Some r /\ currentStep s' = results /\ error s' = None)
  /\ (search <> Resolved true \/ (exists d, res = Rejected d) ->
        analysisResults s' = analysisResults s /\ diffData s' = diffData s
        /\ currentStep s' = analyze)
  /\ (forall d, diff = Rejected d -> diffData s' = diffData s).
Proof.
  intros Hu. cbv zeta. unfold handleAnalyze. rewrite Hu.
  destruct search as [[|]|e1], res as [r|e2], diff as [d|e3], hist as [h|e4],
    (showHistory s); simpl;
    (split; [reflexivity|]);
    (split; [intros r0 H1 H2; try discriminate; inversion H2; subst;
             repeat split; reflexivity|]);
    (split; [intros [H|[d0 H]]; try congruence; try discriminate;
             repeat split; reflexivity|]);
    intros d0 H; try discriminate; reflexivity.
Qed.

Lemma handleAnalyze_outcome_witness :
  let s := setUploadData (Some (UploadResponse.mk true "f1" "a.png" 10 "/f1"))
             initialState in
  let r := ResultsResponse.mk true "f1" "completed" "" None None (Some [])
             None None in
  let s' := handleAnalyze (Resolved true) (Resolved r) (Rejected "timeout")
              (Rejected "x") s in
  loading s' = false /\ analysisResults s' = Some r /\ currentStep s' = results
  /\ diffData s' = None.
Proof.
  cbv zeta.
  destruct (handleAnalyze_outcome (Resolved true)
              (Resolved (ResultsResponse.mk true "f1" "completed" "" None None
                           (Some []) None None))
              (Rejected "timeout") (Rejected "x")
              (setUploadData (Some (UploadResponse.mk true "f1" "a.png" 10 "/f1"))
                 initialState)
              (UploadResponse.mk true "f1" "a.png" 10 "/f1") eq_refl)
    as (H1 & H2 & _ & H4).
  destruct (H2 _ eq_refl eq_refl) as (H5 & H6 & _).
  split; [exact H1|]. split; [exact H5|]. split; [exact H6|].
  exact (H4 "timeout" eq_refl).
Defined.

(** *** Analysing a batch *)

(** X8: [handleBatchAnalyze] starts the monitoring exactly when the search
    request answers with [success]; it clears the loading flag only when
    the request fails.  An answer without [success] therefore leaves the
    application loading, with no monitoring, no error and no toast. *)
Theorem handleBatchAnalyze_outcome search s d :
  batchUploadData s = Some d -> BatchUploadResponse.files d <> [] ->
  let s' := fst (handleBatchAnalyze search s) in
  let monitored := snd (handleBatchAnalyze search s) in
  (forall id, monitored = Some id <->
     exists r, search = Resolved r /\ BatchSearchResponse.success r = true
               /\ BatchSearchResponse.batch_id r = id)
  /\ (loading s' = false <-> exists detail, search = Rejected detail)
  /\ currentStep s' = analyze
  /\ (forall r, search = Resolved r -> BatchSearchResponse.success r = false ->
        monitored = None /\ loading s' = true /\ error s' = None
        /\ showToast s' = showToast s).
Proof.
  intros Hd Hfiles. cbv zeta. unfold handleBatchAnalyze. rewrite Hd.
  destruct (BatchUploadResponse.files d) as [|f fs]; [congruence|]. simpl.
  destruct search as [[ok id0]|detail]; [destruct ok|]; simpl.
  - split; [|split; [|split]].
    + intros id. split.
      * intros H. inversion H. eexists. repeat split.
      * intros (r & Hr & _ & Hid). inversion Hr; subst. reflexivity.
    + split; [discriminate|]. intros [? ?]; discriminate.
    + reflexivity.
    + intros r Hr Hs. inversion Hr; subst. discriminate.
  - split; [|split; [|split]].
    + intros id. split; [discriminate|].
      intros (r & Hr & Hs & _). inversion Hr; subst. discriminate.
    + split; [discriminate|]. intros [? ?]; discriminate.
    + reflexivity.
    + intros r _ _. repeat split.
  - split; [|split; [|split]].
    + intros id. split; [discriminate|]. intros (r & Hr & _). discriminate.
    + split; [|reflexivity]. intros _. eexists. reflexivity.
    + reflexivity.
    + intros r Hr. discriminate.
Qed.

Lemma handleBatchAnalyze_outcome_witness :
  let d := BatchUploadResponse.mk true 1 1 0 10
             [BatchUploadFile.mk "f1" "a.png" 10 "uploaded"] [] "now" in
  let s := setBatchUploadData (Some d) initialState in
  let r := handleBatchAnalyze (Resolved (BatchSearchResponse.mk false "")) s in
  snd r = None /\ loading (fst r) = true /\ error (fst r) = None.
Proof.
  cbv zeta.
  destruct (handleBatchAnalyze_outcome
              (Resolved (BatchSearchResponse.mk false ""))
              (setBatchUploadData
                 (Some (BatchUploadResponse.mk true 1 1 0 10
                          [BatchUploadFile.mk "f1" "a.png" 10 "uploaded"] [] "now"))
                 initialState)
              (BatchUploadResponse.mk true 1 1 0 10
                 [BatchUploadFile.mk "f1" "a.png" 10 "uploaded"] [] "now")
              eq_refl ltac:(discriminate))
    as (_ & _ & _ & H).
  destruct (H _ eq_refl eq_refl) as (H1 & H2 & H3 & _).
  split; [exact H1|]. split; [exact H2|exact H3].
Defined.

Lemma statusAnswered_timer status s :
  snd (statusAnswered status s) = ends_monitoring status.
Proof.
  unfold statusAnswered, ends_monitoring.
  destruct status as [st|detail]; [|reflexivity].
  destruct (String.eqb (BatchJobStatus.status st) "completed"); simpl; [reflexivity|].
  destruct (String.eqb (BatchJobStatus.status st) "error"); reflexivity.
Qed.

Lemma monitorStep_effects s e :
  let s' := monitorStep s e in
  loading s' = (if clears_loading e then false else loading s)
  /\ showBatchResults s' = showBatchResults s || shows_results e
  /\ (stores_results e = false -> batchResults s' = batchResults s)
  /\ (shows_results e = false -> activeTab s' = activeTab s)
  /\ (clears_loading e = false -> currentStep s' = currentStep s).
Proof.
  destruct e as [[st|detail]|st fetch|st]; simpl.
  - unfold statusAnswered.
    destruct (String.eqb (BatchJobStatus.status st) "completed"); simpl.
    + rewrite orb_false_r. repeat split. discriminate.
    + destruct (String.eqb (BatchJobStatus.status st) "error"); simpl;
        rewrite orb_false_r; repeat split; discriminate.
  - rewrite orb_false_r. repeat split.
  - unfold resultsStored.
    destruct (String.eqb (BatchJobStatus.status st) "completed"); simpl;
      rewrite orb_false_r; repeat split; discriminate.
  - unfold resultsShown.
    destruct (String.eqb (BatchJobStatus.status st) "completed"); simpl.
    + rewrite orb_true_r. repeat split; discriminate.
    + rewrite orb_false_r. repeat split.
Qed.

(** X9: in whatever order the answers to the status requests arrive and
    the results are stored and shown, also after the timer was cleared, the
    monitoring never turns the loading flag on and never hides the batch
    results: loading is cleared as soon as one status request has failed or
    reported 'completed' or 'error', and the batch results are shown as soon
    as the callback of one 'completed' status has run to its end.  Until
    then step, tab and batch results are left alone. *)
Theorem monitoring_effects (events : list MonitorEvent) (s : AppState) :
  let s' := fold_left monitorStep events s in
  loading s' = (if existsb clears_loading events then false else loading s)
  /\ showBatchResults s' = showBatchResults s || existsb shows_results events
  /\ (existsb stores_results events = false -> batchResults s' = batchResults s)
  /\ (existsb shows_results events = false -> activeTab s' = activeTab s)
  /\ (existsb clears_loading events = false -> currentStep s' = currentStep s).
Proof.
  cbv zeta. revert s. induction events as [|e events IH]; intros s.
  - simpl. rewrite orb_false_r. repeat split.
  - cbn [fold_left existsb].
    destruct (IH (monitorStep s e)) as (I1 & I2 & I3 & I4 & I5).
    destruct (monitorStep_effects s e) as (E1 & E2 & E3 & E4 & E5).
    split; [|split; [|split; [|split]]].
    + rewrite I1, E1.
      destruct (clears_loading e), (existsb clears_loading events); reflexivity.
    + rewrite I2, E2. symmetry. apply orb_assoc.
    + intros H. apply orb_false_iff in H as [He Hev].
      rewrite (I3 Hev). apply E3. exact He.
    + intros H. apply orb_false_iff in H as [He Hev].
      rewrite (I4 Hev). apply E4. exact He.
    + intros H. apply orb_false_iff in H as [He Hev].
      rewrite (I5 Hev). apply E5. exact He.
Qed.

(** A status request fails and clears the timer; the answer to an earlier
    request, 'completed', arrives afterwards and its callback runs to its
    end: the results are shown. *)
Example late_completed_answer :
  let st := BatchJobStatus.mk "b1" 1 1 "completed" "t0" None [] None in
  let s := fold_left monitorStep
             [ Answered (Rejected "timeout"); Answered (Resolved st);
               Stored st (fun _ => Rejected "x"); Shown st ]
             (setLoading true initialState) in
  loading s = false /\ showBatchResults s = true /\ currentStep s = results.
Proof. repeat split. Qed.

(** *** Collecting the results of a batch *)

Lemma find_app {A} (f : A -> bool) (l1 l2 : list A) :
  List.find f (l1 ++ l2)
  = match List.find f l1 with Some x => Some x | None => List.find f l2 end.
Proof.
  induction l1 as [|x l1 IH]; simpl; [reflexivity|].
  destruct (f x); [reflexivity|exact IH].
Qed.

Lemma collect_lookup fetch files : forall acc id,
  fold_left (collectResult fetch) files acc !! id
  = match List.find (fun file =>
            String.eqb (BatchFileStatus.file_id file) id
            && negb (String.eqb id "__proto__")
            && String.eqb (BatchFileStatus.status file) "completed"
            && match fetch file with
               | Resolved r => ResultsResponse.success r
               | Rejected _ => false
               end) (rev files) with
    | Some file => match fetch file with Resolved r => Some r | Rejected _ => None end
    | None => acc !! id
    end.
Proof.
  induction files as [|file files IH]; intros acc id; [reflexivity|].
  cbn [fold_left rev]. rewrite IH, find_app.
  destruct (List.find _ (rev files)) as [file'|]; [reflexivity|].
  unfold collectResult, assignProperty. cbn [List.find].
  destruct (String.eqb (BatchFileStatus.status file) "completed");
    [|rewrite andb_false_r; reflexivity].
  rewrite andb_true_r.
  destruct (fetch file) as [r|detail] eqn:Hfetch;
    [|rewrite andb_false_r; reflexivity].
  destruct (ResultsResponse.success r); [|rewrite andb_false_r; reflexivity].
  rewrite andb_true_r.
  destruct (String.eqb_spec (BatchFileStatus.file_id file) id) as [->|Hne]; simpl.
  - destruct (String.eqb id "__proto__"); simpl; [reflexivity|].
    rewrite Hfetch. apply lookup_insert_eq.
  - destruct (String.eqb (BatchFileStatus.file_id file) "__proto__");
      [reflexivity|]. apply lookup_insert_ne. exact Hne.
Qed.

(** X10: after [fetchBatchResults] the batch results hold an entry for a
    file id exactly when the id is not "__proto__" and some completed file
    with that id had its results request answered with [success]; the entry
    is the answer for such a file, and nothing of the previous batch results
    is kept.  A file whose id is "__proto__" gets no entry. *)
Theorem fetchBatchResults_entries fetch files s id :
  let m := batchResults (fetchBatchResults fetch files s) in
  (is_Some (m !! id) <->
     id <> "__proto__"
     /\ exists file r, In file files /\ BatchFileStatus.file_id file = id
                       /\ BatchFileStatus.status file = "completed"
                       /\ fetch file = Resolved r
                       /\ ResultsResponse.success r = true)
  /\ (forall r, m !! id = Some r ->
        exists file, In file files /\ BatchFileStatus.file_id file = id
                     /\ BatchFileStatus.status file = "completed"
                     /\ fetch file = Resolved r /\ ResultsResponse.success r = true)
  /\ m !! "__proto__" = None
  /\ (size m <= length files)%nat.
Proof.
  cbv zeta. unfold fetchBatchResults. simpl.
  assert (forall id' r, fold_left (collectResult fetch) files ∅ !! id' = Some r ->
            id' <> "__proto__"
            /\ exists file, In file files /\ BatchFileStatus.file_id file = id'
                            /\ BatchFileStatus.status file = "completed"
                            /\ fetch file = Resolved r
                            /\ ResultsResponse.success r = true)
    as Hsome.
  { intros id' r. rewrite collect_lookup.
    destruct (List.find _ (rev files)) as [file|] eqn:Hf;
      [|rewrite lookup_empty; discriminate].
    apply List.find_some in Hf as [Hin Hp].
    apply andb_true_iff in Hp as [Hp Hok]. apply andb_true_iff in Hp as [Hp Hst].
    apply andb_true_iff in Hp as [Hid Hproto].
    apply String.eqb_eq in Hid, Hst.
    apply negb_true_iff, String.eqb_neq in Hproto.
    destruct (fetch file) as [r'|detail] eqn:Hfetch; [|discriminate].
    intros H. inversion H; subst r'. split; [exact Hproto|].
    exists file. rewrite <- List.in_rev in Hin. repeat split; assumption. }
  split; [|split; [intros r Hr; apply (Hsome id r Hr)|split]].
  - split.
    + intros [r Hr]. destruct (Hsome id r Hr) as (Hp & file & H).
      split; [exact Hp|]. exists file, r. exact H.
    + intros (Hproto & file & r & Hin & Hid & Hst & Hfetch & Hok).
      rewrite collect_lookup.
      destruct (List.find _ (rev files)) as [file'|] eqn:Hf.
      * apply List.find_some in Hf as [_ Hp].
        apply andb_true_iff in Hp as [_ Hok'].
        destruct (fetch file'); [eexists; reflexivity|discriminate].
      * pose proof (List.find_none _ _ Hf file (proj1 (List.in_rev _ _) Hin))
          as Hfalse.
        simpl in Hfalse. apply String.eqb_neq in Hproto.
        rewrite Hid, Hst, Hfetch, Hok, String.eqb_refl, Hproto in Hfalse.
        discriminate.
  - destruct (fold_left (collectResult fetch) files ∅ !! "__proto__") as [r|] eqn:Hl;
      [|reflexivity].
    destruct (Hsome _ r Hl) as [Hp _]. congruence.
  - clear Hsome.
    assert (forall acc, size (fold_left (collectResult fetch) files acc)
                        <= size acc + length files)%nat as Hsz.
    { induction files as [|file files IH]; intros acc; simpl; [lia|].
      etrans; [apply IH|].
      assert (size (collectResult fetch acc file) <= S (size acc))%nat; [|lia].
      unfold collectResult, assignProperty.
      destruct (String.eqb _ _); [|lia].
      destruct (fetch file) as [r|]; [|lia].
      destruct (ResultsResponse.success r); [|lia].
      destruct (String.eqb _ _); [lia|].
      destruct (acc !! BatchFileStatus.file_id file) eqn:Hl.
      - rewrite map_size_insert_Some; [lia|]. eauto.
      - rewrite map_size_insert_None; [lia|exact Hl]. }
    specialize (Hsz ∅). rewrite map_size_empty in Hsz. exact Hsz.
Qed.

Example fetchBatchResults_proto :
  let file id := BatchFileStatus.mk id "a.png" "completed" 100 None None in
  let answer := ResultsResponse.mk true "i" "completed" "" None None None None None in
  batchResults
    (fetchBatchResults (fun _ => Resolved answer) [file "__proto__"; file "f1"]
       initialState)
  = {[ "f1" := answer ]}.
Proof. vm_compute. reflexivity. Qed.

(** *** The tab of one file *)

Lemma sections_cons title l rest :
  (omap id (renderResultSection title l :: rest)) ≫= snd
  = (l ++ (omap id rest ≫= snd))%list.
Proof.
  unfold renderResultSection. destruct l as [|x l]; reflexivity.
Qed.

Lemma shownInTab_groups rs :
  shownInTab rs
  = (List.filter is_safe rs ++ List.filter is_warning rs
     ++ List.filter is_unknown rs ++ List.filter is_danger rs)%list.
Proof.
  unfold shownInTab, fileTabSections. cbv zeta.
  rewrite !sections_cons. csimpl. rewrite app_nil_r. reflexivity.
Qed.

Lemma count_known rs :
  (count is_safe rs + count is_warning rs + count is_unknown rs
   + count is_danger rs)%nat = count is_known rs.
Proof.
  induction rs as [|r rs IH]; [reflexivity|].
  rewrite !FrontendFacts.count_cons, <- IH. unfold is_known.
  destruct (FrontendFacts.classes_exclusive r) as [Hs Hd].
  destruct (is_safe r) eqn:E1.
  - destruct (Hs eq_refl) as (-> & -> & ->). simpl. lia.
  - destruct (is_danger r) eqn:E2.
    + destruct (Hd eq_refl) as (-> & ->). simpl. lia.
    + destruct (is_unknown r) eqn:E3, (is_warning r) eqn:E4; simpl; try lia.
      unfold is_unknown, is_warning in E3, E4.
      apply String.eqb_eq in E3, E4. rewrite E3 in E4. discriminate.
Qed.

Lemma count_split (f : AnalysisResult -> bool) rs :
  (count f rs + count (fun r => negb (f r)) rs)%nat = length rs.
Proof.
  induction rs as [|r rs IH]; [reflexivity|].
  rewrite !FrontendFacts.count_cons. simpl. destruct (f r); simpl; lia.
Qed.

Lemma count_other rs :
  count is_other rs
  = (count is_unknown rs + count (fun r => negb (is_known r)) rs)%nat.
Proof.
  induction rs as [|r rs IH]; [reflexivity|].
  rewrite !FrontendFacts.count_cons, IH. unfold is_other, is_known.
  destruct (FrontendFacts.classes_exclusive r) as [Hs Hd].
  destruct (is_safe r) eqn:E1.
  - destruct (Hs eq_refl) as (-> & -> & ->). simpl. lia.
  - destruct (is_danger r) eqn:E2.
    + destruct (Hd eq_refl) as (-> & ->). simpl. lia.
    + destruct (is_unknown r) eqn:E3, (is_warning r) eqn:E4; simpl; try lia.
      unfold is_unknown, is_warning in E3, E4.
      apply String.eqb_eq in E3, E4. rewrite E3 in E4. discriminate.
Qed.

(** X11: the tab of a file shows exactly the results whose judgment is one
    of the four marks, each once.  The overview counts every result, the
    unrecognised ones as unknown, so its total exceeds what the tab shows by
    the number of unrecognised judgments; a file with results of which none
    is recognised gets an empty tab body rather than the no-results
    message. *)
Theorem fileTab_shows_recognised (rs : list AnalysisResult) :
  let unrecognised := count (fun r => negb (is_known r)) rs in
  (forall r, In r (shownInTab rs) <-> In r rs /\ is_known r = true)
  /\ length (shownInTab rs) = count is_known rs
  /\ total (summary (Some rs)) = (length (shownInTab rs) + unrecognised)%nat
  /\ unknown (summary (Some rs)) = (count is_unknown rs + unrecognised)%nat
  /\ (rs <> [] -> count is_known rs = 0%nat -> fileTabBody (Some rs) = Some []).
Proof.
  cbv zeta.
  assert (length (shownInTab rs) = count is_known rs) as Hlen.
  { rewrite shownInTab_groups, !length_app, <- count_known. unfold count. lia. }
  split; [|split; [exact Hlen|split; [|split]]].
  - intros r. rewrite shownInTab_groups, !in_app_iff, !filter_In. unfold is_known.
    destruct (is_safe r), (is_danger r), (is_unknown r), (is_warning r); simpl;
      intuition discriminate.
  - simpl. rewrite (FrontendFacts.reduce_total rs summary0), Hlen. simpl.
    symmetry. apply count_split.
  - simpl. destruct (FrontendFacts.reduce_counts rs summary0) as (_ & _ & _ & H).
    rewrite H. simpl. apply count_other.
  - intros Hne Hzero. destruct rs as [|r rs]; [congruence|].
    unfold fileTabBody, fileTabSections.
    pose proof (count_known (r :: rs)) as Hc. rewrite Hzero in Hc.
    unfold count, is_safe, is_warning, is_unknown, is_danger,
      J_SAFE, J_WARNING, J_UNKNOWN, J_DANGER in Hc.
    cbv zeta.
    destruct (List.filter _ (r :: rs)) as [|? ?]; [|simpl in Hc; lia].
    destruct (List.filter _ (r :: rs)) as [|? ?]; [|simpl in Hc; lia].
    destruct (List.filter _ (r :: rs)) as [|? ?]; [|simpl in Hc; lia].
    destruct (List.filter _ (r :: rs)) as [|? ?]; [|simpl in Hc; lia].
    reflexivity.
Qed.

Example fileTab_unrecognised :
  let rs := [ mkAnalysisResult "a" "○" ""; mkAnalysisResult "b" "△" "" ] in
  shownInTab rs = [ mkAnalysisResult "a" "○" "" ]
  /\ summary (Some rs) = mkSummary 1 0 0 1
  /\ fileTabBody (Some [mkAnalysisResult "b" "△" ""]) = Some [].
Proof. repeat split. Qed.

(** *** The stored diff over time *)

Lemma lastEffective_effective events : lastEffective events <> Some FetchFailed.
Proof.
  induction events as [|e events IH]; simpl; [discriminate|].
  destruct (lastEffective events) as [e'|]; [exact IH|].
  destruct e; discriminate.
Qed.

(** X12: the stored diff is always the answer of the most recent diff
    request that succeeded, unless a reset came after it; a failed diff
    request changes nothing, so the alert keeps showing what it showed. *)
Theorem diffAfter_last_effective (events : list DiffEvent) (st : option DiffResponse) :
  diffAfter events st
  = match lastEffective events with
    | Some (FetchOk d) => Some d
    | Some Reset => None
    | _ => st
    end
  /\ (forall shown,
        diffAlertRendered shown (diffAfter (events ++ [FetchFailed])%list st)
        = diffAlertRendered shown (diffAfter events st)).
Proof.
  split.
  - unfold diffAfter. revert st.
    induction events as [|e events IH]; intros st; [reflexivity|].
    cbn [fold_left lastEffective]. rewrite IH.
    pose proof (lastEffective_effective events) as Heff.
    destruct (lastEffective events) as [[d| |]|]; try reflexivity; [congruence|].
    destruct e; reflexivity.
  - intros shown. unfold diffAfter. rewrite fold_left_app. reflexivity.
Qed.

Example diffAfter_stale :
  let d := mkDiffResponse true true None (Some (mkDiffBody [] [] [] true 1 0 0)) in
  diffAlertRendered true (diffAfter [Reset; FetchOk d; FetchFailed] None) = true.
Proof. reflexivity. Qed.

End BatchAppFacts.


(** ** Front end: the dashboard *)

Module DashboardFacts.
Import Dashboard.

(** X13: the pie chart has a slice for a judgment exactly when its count
    is positive, and that slice carries the judgment's name, mark and
    count; the slices come in the fixed order safe, danger, unknown,
    warning.  When no count is negative they add up to the four counts, and
    the chart has no slice exactly when no count is positive. *)
Theorem pieData_positive_slices (st : DashboardStats) :
  let d := judgment_distribution st in
  let slices := pieData (Some st) in
  (forall item, In item slices <->
     (0 < value item)%Z
     /\ (item = mkPieItem "安全" (count_safe d) "○"
         \/ item = mkPieItem "危険" (count_danger d) "×"
         \/ item = mkPieItem "不明" (count_unknown d) "？"
         \/ item = mkPieItem "要注意" (count_warning d) "！"))
  /\ Forall (fun item => (0 < value item)%Z) slices
  /\ key <$> slices `sublist_of` ["○"; "×"; "？"; "！"]
  /\ ((0 <= count_safe d)%Z -> (0 <= count_danger d)%Z ->
      (0 <= count_unknown d)%Z -> (0 <= count_warning d)%Z ->
      foldr Z.add 0%Z (value <$> slices)
      = (count_safe d + count_danger d + count_unknown d + count_warning d)%Z)
  /\ (slices = [] <->
      (count_safe d <= 0)%Z /\ (count_danger d <= 0)%Z
      /\ (count_unknown d <= 0)%Z /\ (count_warning d <= 0)%Z)
  /\ pieData None = [].
Proof.
  cbv zeta. split.
  - intros item. unfold pieData. rewrite filter_In. simpl.
    rewrite Z.ltb_lt. intuition (subst; auto).
  - unfold pieData. simpl.
    destruct (Z.ltb_spec 0 (count_safe (judgment_distribution st)));
      destruct (Z.ltb_spec 0 (count_danger (judgment_distribution st)));
      destruct (Z.ltb_spec 0 (count_unknown (judgment_distribution st)));
      destruct (Z.ltb_spec 0 (count_warning (judgment_distribution st)));
      simpl;
      (split; [repeat constructor; assumption|]);
      (split; [repeat constructor|]);
      (split; [intros; lia|]);
      (split; [|reflexivity]);
      split; intros H'; try discriminate; try lia; try reflexivity;
      repeat split; lia.
Qed.

Example pieData_two_slices :
  pieData (Some (mkStats [] (mkDistribution 3 0 2 0) 5 5))
  = [ mkPieItem "安全" 3 "○"; mkPieItem "不明" 2 "？" ].
Proof. reflexivity. Qed.

Lemma barData_entries f (l : list (string * Z)) :
  (fun b => (fullDate b, count b))
    <$> ((fun '(d, c) => mkBarItem (f d) c d) <$> l) = l.
Proof.
  induction l as [|[d c] l IH]; csimpl; [reflexivity|]. f_equal. exact IH.
Qed.

(** X14: the bar chart shows the last seven entries of the daily
    statistics, in their order, and all of them when there are fewer than
    seven; each bar keeps the date and count of its entry. *)
Theorem barData_last_seven (toLocaleDateString : string -> string)
    (st : DashboardStats) :
  let bars := barData toLocaleDateString (Some st) in
  length bars = Nat.min 7 (length (daily_stats st))
  /\ (fun b => (fullDate b, count b)) <$> bars `suffix_of` daily_stats st
  /\ ((length (daily_stats st) <= 7)%nat ->
      (fun b => (fullDate b, count b)) <$> bars = daily_stats st)
  /\ Forall (fun b => date b = toLocaleDateString (fullDate b)) bars
  /\ barData toLocaleDateString None = [].
Proof.
  cbv zeta. unfold barData, slice_last.
  split; [rewrite length_fmap, length_drop; lia|].
  rewrite barData_entries.
  split; [exists (take (length (daily_stats st) - 7) (daily_stats st));
          symmetry; apply take_drop|].
  split; [intros Hle; replace (length (daily_stats st) - 7)%nat with 0%nat by lia;
          reflexivity|].
  split; [|reflexivity].
  apply Forall_fmap, Forall_forall. intros [d c] _. reflexivity.
Qed.

Example barData_nine_days :
  fullDate <$> barData (fun d => d)
    (Some (mkStats [ ("d1", 1); ("d2", 2); ("d3", 3); ("d4", 4); ("d5", 5);
                     ("d6", 6); ("d7", 7); ("d8", 8); ("d9", 9) ]%Z
             (mkDistribution 0 0 0 0) 9 45))
  = [ "d3"; "d4"; "d5"; "d6"; "d7"; "d8"; "d9" ].
Proof. reflexivity. Qed.

End DashboardFacts.


(** ** The SerpAPI criterion, before and after *)

Module SerpApiNotesFacts.
Import HashEngine SerpApiNotes.

(** X15: the three-hash test is stricter than the pHash-only test it
    replaced: whatever it accepts the earlier test accepted too, and some
    pairs the earlier test accepted are now rejected. *)
Theorem is_near_exact_stricter :
  (forall h, is_near_exact h = true -> legacy_match (phash_dist h) = true)
  /\ (exists h, legacy_match (phash_dist h) = true /\ is_near_exact h = false).
Proof.
  split.
  - intros h H. apply HashFacts.is_near_exact_iff in H as (Hp & _).
    unfold legacy_match. apply Nat.leb_le. exact Hp.
  - exists (mkHashDistances 1 4 0 4). split; reflexivity.
Qed.

End SerpApiNotesFacts.
